(** * locar.js: the device orientation controls

    A shallow embedding of [DeviceOrientationControls]
    (lib/three/device-orientation-controls.ts) and of the parts of the
    browser and of three.js it talks to.

    Numbers.  A JavaScript number is modelled as an exact rational ([Q]):
    the constants are the rationals the source denotes ([Math_PI] is the
    binary64 value of [Math.PI], which is a rational), every arithmetic
    operation is exact, and NaN and the infinities are left out.  Equality of
    numbers is therefore [Qeq] ([==]).  Where the rounding of binary64 decides
    a property, the code is run on the kernel's binary64 numbers
    ([Binary64]).

    three.js.  The quaternion and Euler-angle routines belong to three.js and
    use sines and arctangents; the rotation written to the target object is
    kept as the term of three.js calls that builds it ([Three.Quaternion]).

    Handlers.  What the controls emit is recorded as the list of their [emit]
    calls; the emitter itself is [EventEmitter].  Subscribed handlers are
    caller code: a handler may return or throw, and is taken not to subscribe
    or unsubscribe while it runs. *)

From Stdlib Require Floats.
From Stdlib Require Import QArith Qabs Qminmax Qround Lqa ZArith Lia Bool List String.
Import ListNotations.
Import (notations) PrimFloat.

Local Open Scope Q_scope.

(** ** JavaScript numbers over [Q] *)

Module JS.

(** [x < y] *)
Definition ltb (x y : Q) : bool :=
  (Qnum x * QDen y <? Qnum y * QDen x)%Z.

(** [x > y] *)
Definition gtb (x y : Q) : bool := ltb y x.

(** [x >= y] *)
Definition geb (x y : Q) : bool := Qle_bool y x.

(** [x == y] on numbers *)
Definition eqb (x y : Q) : bool := Qeq_bool x y.

(** Truthiness of a number: every number but zero. *)
Definition truthy (x : Q) : bool := negb (Qeq_bool x 0).

(** [x || y] on numbers *)
Definition or (x y : Q) : Q := if truthy x then x else y.

(** [x ?? y]: [None] stands for [null] and [undefined]. *)
Definition nullish {A : Type} (x : option A) (y : A) : A :=
  match x with
  | Some v => v
  | None => y
  end.

(** Integer part of a rational, rounding toward zero. *)
Definition trunc (q : Q) : Z := Z.quot (Qnum q) (Zpos (Qden q)).

(** [x % y]: the remainder has the sign of the dividend. *)
Definition rem (x y : Q) : Q := x - y * inject_Z (trunc (x / y)).

(** [Math.abs] *)
Definition abs (x : Q) : Q := Qabs x.

(** [Math.PI], the binary64 number 0x400921FB54442D18. *)
Definition Math_PI : Q := 884279719003555 # 281474976710656.

End JS.

(** ** three.js *)

Module MathUtils.

(** [MathUtils.degToRad]: degrees times [Math.PI / 180]. *)
Definition DEG2RAD : Q := JS.Math_PI / 180.
Definition degToRad (degrees : Q) : Q := degrees * DEG2RAD.

End MathUtils.

Module Three.

(** A quaternion is the term of three.js calls that produced it. *)
Inductive Quaternion : Type :=
| Identity                            (* new Quaternion() *)
| FromEulerYXZ (x y z : Q)            (* _euler.set(x, y, z, "YXZ"); q.setFromEuler(_euler) *)
| Multiply (p q : Quaternion)         (* p.multiply(q) *)
| MinusHalfPiAboutX                   (* _q1 *)
| FromAxisAngleZ (angle : Q)          (* _q0.setFromAxisAngle(_zee, angle) *)
| WithYaw (q : Quaternion) (y : Q).   (* e = new Euler().setFromQuaternion(q, "YXZ");
                                         e.y = y; new q.setFromEuler(e) *)

End Three.

(** ** DeviceOrientationControls *)

Module DeviceOrientationControls.

Import JS.

Definition TWO_PI : Q := 2 * Math_PI.
Definition HALF_PI : Q := (5 # 10) * Math_PI.

Record Angles : Type := mkAngles { left : Q; right : Q }.

(** [_orderAngle(a, b, range)] *)
Definition _orderAngle (a b range : Q) : Angles :=
  if (gtb b a && ltb (abs (b - a)) (range / 2))
     || (gtb a b && gtb (abs (b - a)) (range / 2))
  then {| left := a; right := b |}
  else {| left := b; right := a |}.

(** [_getSmoothedAngle(a, b, k, range)]; a call without [range] passes
    [TWO_PI]. *)
Definition _getSmoothedAngle (a b k range : Q) : Q :=
  let angles := _orderAngle a b range in
  let angleshift := left angles in
  let origAnglesRight := right angles in
  let angles_left := 0 in
  let angles_right := right angles - angleshift in
  let angles_right :=
    if ltb angles_right 0 then angles_right + range else angles_right in
  let newangle :=
    if eqb origAnglesRight b
    then (1 - k) * angles_right + k * angles_left
    else k * angles_right + (1 - k) * angles_left in
  let newangle := newangle + angleshift in
  if geb newangle range then newangle - range else newangle.


(** *** Data *)

(** A [DeviceOrientationEvent] as the browser delivers it; [None] is a
    field that is [null] or missing. *)
Module Event.
Record t : Type := mk {
  alpha : option Q;
  beta : option Q;
  gamma : option Q;
  webkitCompassHeading : option Q
}.
End Event.

(** The object kept in [deviceOrientation].  The handler is its only writer
    and always stores numbers in [alpha], [beta] and [gamma]; it stores
    [webkitCompassHeading] on iOS only and never stores [absolute]. *)
Module Sample.
Record t : Type := mk {
  alpha : Q;
  beta : Q;
  gamma : Q;
  webkitCompassHeading : option Q;
  absolute : option bool
}.
End Sample.

(** The object kept in [lastOrientation] (radians). *)
Module Last.
Record t : Type := mk { alpha : Q; beta : Q; gamma : Q }.
End Last.

Inductive EventName : Type := deviceorientation | deviceorientationabsolute.

(** The constructor's [options]. *)
Record Options : Type := mkOptions {
  opt_smoothingFactor : option Q;
  opt_orientationChangeThreshold : option Q;
  opt_enablePermissionDialog : option bool;
  opt_enableStyling : option bool;
  opt_preferConfirmDialog : option bool
}.

Definition noOptions : Options := mkOptions None None None None None.

(** The fields the constructor sets once. *)
Record Config : Type := mkConfig {
  orientationChangeEventName : EventName;
  smoothingFactor : Q;
  enablePermissionDialog : bool;
  enableInlineStyling : bool;
  preferConfirmDialog : bool;
  orientationChangeThreshold : Q
}.

(** The fields that change, with the quaternion of the controlled object and
    the two listeners [connect] puts on [window]. *)
Record Controls : Type := mkControls {
  config : Config;
  quaternion : Three.Quaternion;
  enabled : bool;
  deviceOrientation : option Sample.t;
  screenOrientation : Q;
  alphaOffset : Q;
  orientationOffset : Q;
  initialOffset : option bool;
  lastCompassY : option Q;
  lastOrientation : option Last.t;
  listensOrientationChange : bool;
  listensDeviceOrientation : bool
}.

Definition set_quaternion (q : Three.Quaternion) (c : Controls) : Controls :=
  mkControls (config c) q (enabled c) (deviceOrientation c)
    (screenOrientation c) (alphaOffset c) (orientationOffset c)
    (initialOffset c) (lastCompassY c) (lastOrientation c)
    (listensOrientationChange c) (listensDeviceOrientation c).

Definition set_enabled (v : bool) (c : Controls) : Controls :=
  mkControls (config c) (quaternion c) v (deviceOrientation c)
    (screenOrientation c) (alphaOffset c) (orientationOffset c)
    (initialOffset c) (lastCompassY c) (lastOrientation c)
    (listensOrientationChange c) (listensDeviceOrientation c).

Definition set_deviceOrientation (v : option Sample.t) (c : Controls) : Controls :=
  mkControls (config c) (quaternion c) (enabled c) v
    (screenOrientation c) (alphaOffset c) (orientationOffset c)
    (initialOffset c) (lastCompassY c) (lastOrientation c)
    (listensOrientationChange c) (listensDeviceOrientation c).

Definition set_screenOrientation (v : Q) (c : Controls) : Controls :=
  mkControls (config c) (quaternion c) (enabled c) (deviceOrientation c)
    v (alphaOffset c) (orientationOffset c)
    (initialOffset c) (lastCompassY c) (lastOrientation c)
    (listensOrientationChange c) (listensDeviceOrientation c).

Definition set_alphaOffset (v : Q) (c : Controls) : Controls :=
  mkControls (config c) (quaternion c) (enabled c) (deviceOrientation c)
    (screenOrientation c) v (orientationOffset c)
    (initialOffset c) (lastCompassY c) (lastOrientation c)
    (listensOrientationChange c) (listensDeviceOrientation c).

Definition set_orientationOffset (v : Q) (c : Controls) : Controls :=
  mkControls (config c) (quaternion c) (enabled c) (deviceOrientation c)
    (screenOrientation c) (alphaOffset c) v
    (initialOffset c) (lastCompassY c) (lastOrientation c)
    (listensOrientationChange c) (listensDeviceOrientation c).

Definition set_initialOffset (v : option bool) (c : Controls) : Controls :=
  mkControls (config c) (quaternion c) (enabled c) (deviceOrientation c)
    (screenOrientation c) (alphaOffset c) (orientationOffset c)
    v (lastCompassY c) (lastOrientation c)
    (listensOrientationChange c) (listensDeviceOrientation c).

Definition set_lastCompassY (v : option Q) (c : Controls) : Controls :=
  mkControls (config c) (quaternion c) (enabled c) (deviceOrientation c)
    (screenOrientation c) (alphaOffset c) (orientationOffset c)
    (initialOffset c) v (lastOrientation c)
    (listensOrientationChange c) (listensDeviceOrientation c).

Definition set_lastOrientation (v : option Last.t) (c : Controls) : Controls :=
  mkControls (config c) (quaternion c) (enabled c) (deviceOrientation c)
    (screenOrientation c) (alphaOffset c) (orientationOffset c)
    (initialOffset c) (lastCompassY c) v
    (listensOrientationChange c) (listensDeviceOrientation c).

Definition set_listeners (v : bool) (c : Controls) : Controls :=
  mkControls (config c) (quaternion c) (enabled c) (deviceOrientation c)
    (screenOrientation c) (alphaOffset c) (orientationOffset c)
    (initialOffset c) (lastCompassY c) (lastOrientation c) v v.

(** What the script reads from [window] and [navigator] once. *)
Record Window : Type := mkWindow {
  (** [Some b]: [window.DeviceOrientationEvent] is defined, and [b] tells
      whether its [requestPermission] is a function. *)
  DeviceOrientationEvent : option bool;
  (** [window.isSecureContext]; [None] where the browser has none. *)
  isSecureContext : option bool;
  (** ["ondeviceorientationabsolute" in window] *)
  ondeviceorientationabsolute : bool;
  (** the module constant [isIOS] *)
  isIOS : bool
}.

(** *** Construction *)

(** The constructor: [object] is the controlled object, known here by its
    quaternion. *)
Definition construct (w : Window) (object : Three.Quaternion)
    (options : Options) : Controls :=
  {| config :=
       {| orientationChangeEventName :=
            if ondeviceorientationabsolute w
            then deviceorientationabsolute else deviceorientation;
          smoothingFactor :=
            match opt_smoothingFactor options with
            | Some v => or v 1
            | None => 1
            end;
          enablePermissionDialog :=
            nullish (opt_enablePermissionDialog options) true;
          enableInlineStyling := nullish (opt_enableStyling options) true;
          preferConfirmDialog :=
            nullish (opt_preferConfirmDialog options) false;
          orientationChangeThreshold :=
            nullish (opt_orientationChangeThreshold options) 0 |};
     quaternion := object;
     enabled := true;
     deviceOrientation := None;
     screenOrientation := 0;
     alphaOffset := 0;
     orientationOffset := 0;
     initialOffset := None;
     lastCompassY := None;
     lastOrientation := None;
     listensOrientationChange := false;
     listensDeviceOrientation := false |}.

(** *** The two listeners *)

(** What the handler hands to [window.dispatchEvent]. *)
Inductive WindowEvent : Type :=
| camera_rotation_change (cameraRotation : Three.Quaternion).

Definition onDeviceOrientationChangeEvent (w : Window)
    (event : Event.t) (scope : Controls) : Controls * list WindowEvent :=
  let alpha := nullish (Event.alpha event) 0 in
  let beta := nullish (Event.beta event) 0 in
  let gamma := nullish (Event.gamma event) 0 in
  let webkitCompassHeading := nullish (Event.webkitCompassHeading event) 0 in
  let scope :=
    if isIOS w then
      let ccwNorthHeading := 360 - webkitCompassHeading in
      let scope :=
        set_alphaOffset (MathUtils.degToRad (ccwNorthHeading - alpha)) scope in
      set_deviceOrientation
        (Some (Sample.mk alpha beta gamma (Some webkitCompassHeading) None))
        scope
    else
      let alpha := if ltb alpha 0 then alpha + 360 else alpha in
      set_deviceOrientation (Some (Sample.mk alpha beta gamma None None)) scope
  in
  (scope, [camera_rotation_change (quaternion scope)]).

(** [angle] is the value of [window.screen.orientation?.angle] at the time
    of the call. *)
Definition onScreenOrientationChangeEvent (w : Window)
    (angle : option Q) (scope : Controls) : Controls :=
  let scope := set_screenOrientation (nullish angle 0) scope in
  if isIOS w then
    if eqb (screenOrientation scope) 90 then
      set_orientationOffset (- HALF_PI) scope
    else if eqb (screenOrientation scope) (-90) then
      set_orientationOffset HALF_PI scope
    else
      set_orientationOffset 0 scope
  else scope.

Definition setObjectQuaternion (alpha beta gamma orient : Q)
    : Three.Quaternion :=
  Three.Multiply
    (Three.Multiply (Three.FromEulerYXZ beta alpha (- gamma))
                    Three.MinusHalfPiAboutX)
    (Three.FromAxisAngleZ (- orient)).

(** *** connect, disconnect *)

Definition connect (w : Window) (angle : option Q) (scope : Controls)
    : Controls :=
  let scope := onScreenOrientationChangeEvent w angle scope in
  let scope := set_listeners true scope in
  set_enabled true scope.

Definition disconnect (scope : Controls) : Controls :=
  let scope := set_listeners false scope in
  let scope := set_enabled false scope in
  let scope := set_initialOffset (Some false) scope in
  set_deviceOrientation None scope.

Definition updateAlphaOffset (scope : Controls) : Controls :=
  set_initialOffset (Some false) scope.

Definition dispose (scope : Controls) : Controls := disconnect scope.

(** *** The deadband filter *)

Definition _calcAngleWithThreshold (scope : Controls) (a b : Q) : Q :=
  if ltb (abs (a - b)) (orientationChangeThreshold (config scope))
  then b else a.

(** *** update *)

(** The angles [update] starts from. *)
Definition rawAngles (scope : Controls) (device : Sample.t) : Last.t :=
  {| Last.alpha :=
       if truthy (Sample.alpha device)
       then MathUtils.degToRad (Sample.alpha device) + alphaOffset scope
       else 0;
     Last.beta :=
       if truthy (Sample.beta device)
       then MathUtils.degToRad (Sample.beta device) else 0;
     Last.gamma :=
       if truthy (Sample.gamma device)
       then MathUtils.degToRad (Sample.gamma device) else 0 |}.

(** The block guarded by [scope.smoothingFactor < 1]. *)
Definition smoothingStep (scope : Controls) (o : Last.t) : Last.t :=
  if ltb (smoothingFactor (config scope)) 1 then
    match lastOrientation scope with
    | Some last =>
        let k := smoothingFactor (config scope) in
        {| Last.alpha :=
             _getSmoothedAngle (Last.alpha o) (Last.alpha last) k TWO_PI;
           Last.beta :=
             _getSmoothedAngle (Last.beta o + Math_PI) (Last.beta last) k
               TWO_PI;
           Last.gamma :=
             _getSmoothedAngle (Last.gamma o + HALF_PI) (Last.gamma last) k
               Math_PI |}
    | None =>
        {| Last.alpha := Last.alpha o;
           Last.beta := Last.beta o + Math_PI;
           Last.gamma := Last.gamma o + HALF_PI |}
    end
  else o.

(** The block guarded by [scope.lastOrientation]. *)
Definition thresholdStep (scope : Controls) (o : Last.t) : Last.t :=
  match lastOrientation scope with
  | Some last =>
      {| Last.alpha :=
           _calcAngleWithThreshold scope (Last.alpha o) (Last.alpha last);
         Last.beta :=
           _calcAngleWithThreshold scope (Last.beta o) (Last.beta last);
         Last.gamma :=
           _calcAngleWithThreshold scope (Last.gamma o) (Last.gamma last) |}
  | None => o
  end.

Definition update (w : Window) (scope : Controls) : Controls :=
  if negb (enabled scope) then scope
  else
    match deviceOrientation scope with
    | None => scope
    | Some device =>
        let orient :=
          if truthy (screenOrientation scope)
          then MathUtils.degToRad (screenOrientation scope) else 0 in
        let o := thresholdStep scope (smoothingStep scope (rawAngles scope device)) in
        let alpha := Last.alpha o in
        let beta := Last.beta o in
        let gamma := Last.gamma o in
        let smoothing := ltb (smoothingFactor (config scope)) 1 in
        let scope :=
          if isIOS w then
            let currentQuaternion :=
              setObjectQuaternion alpha
                (if smoothing then beta - Math_PI else beta)
                (if smoothing then gamma - Math_PI / 2 else gamma)
                orient in
            let compassY :=
              MathUtils.degToRad
                (360 - nullish (Sample.webkitCompassHeading device) 0) in
            let compassY :=
              match lastCompassY scope with
              | Some last =>
                  if smoothing
                  then _getSmoothedAngle compassY last
                         (smoothingFactor (config scope)) TWO_PI
                  else compassY
              | None => compassY
              end in
            let scope := set_lastCompassY (Some compassY) scope in
            set_quaternion
              (Three.WithYaw currentQuaternion
                 (compassY + or (orientationOffset scope) 0))
              scope
          else
            set_quaternion
              (setObjectQuaternion
                 (if isIOS w then alpha + alphaOffset scope else alpha)
                 (if smoothing then beta - Math_PI else beta)
                 (if smoothing then gamma - HALF_PI else gamma)
                 orient)
              scope in
        set_lastOrientation (Some (Last.mk alpha beta gamma)) scope
    end.

(** *** Accessors *)

Definition getCorrectedHeading (w : Window) (scope : Controls) : Q :=
  match deviceOrientation scope with
  | None => 0
  | Some device =>
      if isIOS w then
        let heading := 360 - nullish (Sample.webkitCompassHeading device) 0 in
        if truthy (orientationOffset scope) then
          let heading :=
            heading + orientationOffset scope * (180 / Math_PI) in
          rem (heading + 360) 360
        else heading
      else
        let isAbsolute :=
          match Sample.absolute device with
          | Some true => true
          | _ =>
              match orientationChangeEventName (config scope) with
              | deviceorientationabsolute => true
              | deviceorientation => false
              end
          end in
        let heading :=
          if truthy (Sample.alpha device) then Sample.alpha device else 0 in
        (* the branch on [isAbsolute] is empty *)
        let heading := if isAbsolute then heading else heading in
        let heading := rem (360 - heading) 360 in
        if ltb heading 0 then heading + 360 else heading
  end.

Definition getAlpha (scope : Controls) : Q :=
  match deviceOrientation scope with
  | Some device =>
      if truthy (Sample.alpha device)
      then MathUtils.degToRad (Sample.alpha device) + alphaOffset scope
      else 0
  | None => 0
  end.

Definition getBeta (scope : Controls) : Q :=
  match deviceOrientation scope with
  | Some device =>
      if truthy (Sample.beta device)
      then MathUtils.degToRad (Sample.beta device)
      else 0
  | None => 0
  end.

Definition getGamma (scope : Controls) : Q :=
  match deviceOrientation scope with
  | Some device =>
      if truthy (Sample.gamma device)
      then MathUtils.degToRad (Sample.gamma device)
      else 0
  | None => 0
  end.

(** *** Permissions *)

Local Open Scope string_scope.

(** What [JSON.stringify(value, null, 2)] does with a value: it returns a
    text, it returns [undefined] (for [undefined], a function or a symbol), or
    it throws (for a cyclic object or a BigInt). *)
Inductive Stringify : Type :=
| text (json : string)
| no_text
| fails.

(** The second argument of an [emit] call; [error] is the member [error] of
    the object, [None] where the object has none or it is [undefined]. *)
Inductive Payload : Type :=
| target_this                                   (* { target: this } *)
| failure (code message : string) (error : option string).

(** One call [this.eventEmitter.emit(name, payload)]. *)
Definition Emission : Type := (string * Payload)%type.

(** What the handlers subscribed to an emission do when [emit] calls them:
    [None] when they all return, [Some thrown] when one of them throws,
    [thrown] telling what [JSON.stringify] does with the value thrown.  [emit]
    has no [try], so the exception leaves [emit].  The answer is taken to
    depend on the emission only. *)
Definition Dispatch : Type := Emission -> option Stringify.

(** How a call ends: it returns, or it throws a value, known by what
    [JSON.stringify] does with it. *)
Inductive Completion : Type :=
| returns
| throws (thrown : Stringify).

(** [this.eventEmitter.emit(name, payload)]: the emission made and how the
    call ends. *)
Definition emit (dispatch : Dispatch) (e : Emission)
    : list Emission * Completion :=
  ([e],
   match dispatch e with
   | Some thrown => throws thrown
   | None => returns
   end).

(** How the promise that [requestPermission()] returns settles, if it does:
    with a response, which the code compares to "granted", or with a
    reason. *)
Inductive PermissionPromise : Type :=
| resolves (response : string)
| rejects (reason : Stringify)
| pending.

Definition permissionGranted : Emission :=
  ("deviceorientationgranted", target_this).

Definition permissionDenied : Emission :=
  ("deviceorientationerror",
   failure "LOCAR_DEVICE_ORIENTATION_PERMISSION_DENIED"
     "Permission for device orientation denied - AR will not work correctly"
     None).

Definition permissionFailed (error : option string) : Emission :=
  ("deviceorientationerror",
   failure "LOCAR_DEVICE_ORIENTATION_PERMISSION_FAILED"
     "Permission request for device orientation failed - AR will not work correctly"
     error).

(** The callback of [then]: one emission, and how the callback ends. *)
Definition thenCallback (dispatch : Dispatch) (response : string)
    : list Emission * Completion :=
  if String.eqb response "granted"
  then emit dispatch permissionGranted
  else emit dispatch permissionDenied.

(** The callback of [catch]: [JSON.stringify] first, then the emission.  What
    is thrown in this callback is caught by nothing. *)
Definition catchCallback (error : Stringify) : list Emission :=
  match error with
  | text json => [permissionFailed (Some json)]
  | no_text => [permissionFailed None]
  | fails => []
  end.

(** The emissions of the call and of the promise's callbacks after it, and
    how the call itself ends.  [catch] is chained to the promise [then]
    returns: its callback runs when [requestPermission()] is rejected and also
    when the callback of [then] throws, which it does when a handler of the
    event it emits throws. *)
Definition requestOrientationPermissions (w : Window) (dispatch : Dispatch)
    (p : PermissionPromise) : list Emission * Completion :=
  match DeviceOrientationEvent w with
  | Some true =>
      (match p with
       | resolves response =>
           let (trace, completion) := thenCallback dispatch response in
           match completion with
           | throws thrown => (trace ++ catchCallback thrown)%list
           | returns => trace
           end
       | rejects reason => catchCallback reason
       | pending => []
       end,
       returns)
  | _ =>
      emit dispatch
        ("deviceorientationerror",
         failure "LOCAR_DEVICE_ORIENTATION_INTERNAL_ERROR"
           "Internal error: no requestPermission() found although requestOrientationPermissions() was called - please raise an issue on GitHub"
           None)
  end.

(** What the user does with the prompt: each element is one gesture (OK in
    the confirm box, or a click on the button of the dialog) and tells how
    the request it starts settles. *)
Definition Gestures : Type := list PermissionPromise.

(** The dialog built here calls [requestOrientationPermissions] on every
    click of its button, each click in a task of its own; its elements and
    styling are left out. *)
Definition createObtainPermissionGestureDialog (w : Window)
    (dispatch : Dispatch) (clicks : Gestures) : list Emission * Completion :=
  (flat_map (fun p => fst (requestOrientationPermissions w dispatch p)) clicks,
   returns).

Definition obtainPermissionGesture (w : Window) (scope : Controls)
    (dispatch : Dispatch) (user : Gestures) : list Emission * Completion :=
  if preferConfirmDialog (config scope) then
    match user with
    | p :: _ => requestOrientationPermissions w dispatch p (* confirm() is true *)
    | [] => ([], returns)                                  (* confirm() is false *)
    end
  else createObtainPermissionGestureDialog w dispatch user.

Definition init (w : Window) (scope : Controls) (dispatch : Dispatch)
    (user : Gestures) : list Emission * Completion :=
  match DeviceOrientationEvent w with
  | None =>
      emit dispatch
        ("deviceorientationerror",
         failure "LOCAR_DEVICE_ORIENTATION_NOT_SUPPORTED"
           "Device orientation API not supported" None)
  | Some requestPermission =>
      match isSecureContext w with
      | Some false =>
          emit dispatch
            ("deviceorientationerror",
             failure "LOCAR_DEVICE_ORIENTATION_NO_HTTPS"
               "DeviceOrientationEvent is only available in secure contexts (https)"
               None)
      | _ =>
          let isiOSWithReq := requestPermission in
          if isiOSWithReq && enablePermissionDialog (config scope) then
            obtainPermissionGesture w scope dispatch user
          else
            emit dispatch permissionGranted
      end
  end.

(** Number of emissions of the event [name] in a trace. *)
Definition emitted (name : string) (trace : list Emission) : nat :=
  List.length (filter (fun e => String.eqb (fst e) name) trace).

(** The code of a [deviceorientationerror] emission. *)
Definition errorCode (e : Emission) : option string :=
  match snd e with
  | failure code _ _ => Some code
  | target_this => None
  end.

Local Close Scope string_scope.

(** *** The controls as a transition system *)

(** What can happen to a constructed object: calls of its methods and the
    two browser events, which reach it only while its listeners are on
    [window]. *)
Inductive Action : Type :=
| call_connect (angle : option Q)
| call_disconnect
| call_update
| call_updateAlphaOffset
| call_dispose
| fire_deviceorientation (event : Event.t)
| fire_orientationchange (angle : option Q).

Definition step (w : Window) (scope : Controls) (a : Action) : Controls :=
  match a with
  | call_connect angle => connect w angle scope
  | call_disconnect => disconnect scope
  | call_update => update w scope
  | call_updateAlphaOffset => updateAlphaOffset scope
  | call_dispose => dispose scope
  | fire_deviceorientation event =>
      if listensDeviceOrientation scope
      then fst (onDeviceOrientationChangeEvent w event scope)
      else scope
  | fire_orientationchange angle =>
      if listensOrientationChange scope
      then onScreenOrientationChangeEvent w angle scope
      else scope
  end.

Definition run (w : Window) (scope : Controls) (actions : list Action)
    : Controls :=
  fold_left (step w) actions scope.

(** The states a freshly constructed object can get into. *)
Definition reachable (w : Window) (scope : Controls) : Prop :=
  exists object options actions,
    scope = run w (construct w object options) actions.

End DeviceOrientationControls.

(** ** EventEmitter *)

Module EventEmitter.

(** A handler is a function; the emitter only compares handlers by identity
    ([indexOf]), so a handler is known here by a number standing for its
    reference.  Whether a call of a handler throws is taken to depend on the
    handler and on the parameters only, and handlers are taken not to
    subscribe or unsubscribe on the emitter that calls them. *)
Definition Handler : Type := nat.

(** What [this.eventHandlers[name]] is: [undefined], an array the emitter put
    there, or a member the object literal inherits from [Object.prototype],
    which is neither [undefined] nor an array. *)
Inductive Slot : Type :=
| undefined
| array (handlers : list Handler)
| inherited.

(** [this.eventHandlers] *)
Definition t : Type := string -> Slot.

(** The names of the members of [Object.prototype] (ECMAScript, with its
    annex B), in a realm where no script has added to them. *)
Definition objectPrototype : list string :=
  ["constructor"; "hasOwnProperty"; "isPrototypeOf"; "propertyIsEnumerable";
   "toLocaleString"; "toString"; "valueOf"; "__proto__";
   "__defineGetter__"; "__defineSetter__"; "__lookupGetter__";
   "__lookupSetter__"]%string.

(** [new EventEmitter()]: [this.eventHandlers = {}] *)
Definition create : t :=
  fun name =>
    if existsb (String.eqb name) objectPrototype then inherited else undefined.

(** A call that returns a value or raises a [TypeError]. *)
Inductive Result (A : Type) : Type :=
| ok (a : A)
| TypeError.

Arguments ok {A} a.
Arguments TypeError {A}.

(** One call after another; the first [TypeError] ends the sequence. *)
Definition andThen {A B : Type} (r : Result A) (f : A -> Result B)
    : Result B :=
  match r with
  | ok a => f a
  | TypeError => TypeError
  end.

(** [this.eventHandlers[name] = handlers] *)
Definition assign (e : t) (name : string) (handlers : list Handler) : t :=
  fun n => if String.eqb n name then array handlers else e n.

(** [on(eventName, eventHandler)]: an array is made where the name gives
    [undefined], then the handler is pushed; an inherited member has no
    [push]. *)
Definition on (e : t) (eventName : string) (eventHandler : Handler)
    : Result t :=
  let e :=
    match e eventName with
    | undefined => assign e eventName []
    | _ => e
    end in
  match e eventName with
  | array handlers => ok (assign e eventName (handlers ++ [eventHandler]))
  | _ => TypeError
  end.

(** [array.indexOf(x)]; [None] is -1. *)
Fixpoint indexOf (l : list Handler) (x : Handler) : option nat :=
  match l with
  | [] => None
  | y :: l' =>
      if Nat.eqb y x then Some 0%nat
      else match indexOf l' x with
           | Some i => Some (S i)
           | None => None
           end
  end.

(** [array.splice(index, 1)] *)
Definition splice1 (l : list Handler) (index : nat) : list Handler :=
  firstn index l ++ skipn (S index) l.

(** [off(eventName, eventHandler)]: an inherited member is truthy and has no
    [indexOf]. *)
Definition off (e : t) (eventName : string) (eventHandler : Handler)
    : Result t :=
  match e eventName with
  | undefined => ok e
  | array handlers =>
      match indexOf handlers eventHandler with
      | Some index => ok (assign e eventName (splice1 handlers index))
      | None => ok e
      end
  | inherited => TypeError
  end.

(** How a call of [emit] ends: it returns, a handler throws, or the member
    found has no [forEach]. *)
Inductive Outcome : Type :=
| returned
| thrown
| typeError.

(** [handlers.forEach(handler => handler(...params))]: the calls made, in
    order, and how the loop ends; [raises h params] tells whether the handler
    [h] throws when called with [params], which ends the loop. *)
Fixpoint forEach {Params : Type} (raises : Handler -> Params -> bool)
    (handlers : list Handler) (params : Params)
    : list (Handler * Params) * Outcome :=
  match handlers with
  | [] => ([], returned)
  | handler :: rest =>
      if raises handler params then ([(handler, params)], thrown)
      else
        let (calls, outcome) := forEach raises rest params in
        ((handler, params) :: calls, outcome)
  end.

(** [emit(eventName, ...params)] *)
Definition emit {Params : Type} (raises : Handler -> Params -> bool) (e : t)
    (eventName : string) (params : Params)
    : list (Handler * Params) * Outcome :=
  match e eventName with
  | undefined => ([], returned)
  | array handlers => forEach raises handlers params
  | inherited => ([], typeError)
  end.

(** The calls a sequence of [emit]s makes on the handlers of [e]. *)
Definition deliver {Params : Type} (raises : Handler -> Params -> bool)
    (e : t) (trace : list (string * Params)) : list (Handler * Params) :=
  flat_map (fun emission => fst (emit raises e (fst emission) (snd emission)))
    trace.

End EventEmitter.

(** ** ClickHandler *)

Module ClickHandler.

(** The object: [normalisedMousePosition], a [Vector2] or [null]. *)
Record t : Type := mk { normalisedMousePosition : option (Q * Q) }.

(** The constructor, but for the listener it puts on the canvas. *)
Definition create : t := mk None.

(** The listener of "click": [clientX], [clientY] are the event's, and
    [clientWidth], [clientHeight] the canvas's. *)
Definition onClick (clientX clientY clientWidth clientHeight : Q) (c : t) : t :=
  mk (Some ((clientX / clientWidth) * 2 - 1,
            - ((clientY / clientHeight) * 2) + 1)).

Section Raycast.

(** three.js: cameras, scenes, intersections, and what
    [raycaster.setFromCamera(position, camera)] followed by
    [raycaster.intersectObjects(scene.children, false)] returns. *)
Variables Camera Scene Intersection : Type.
Variable intersectObjects : Q * Q -> Camera -> Scene -> list Intersection.

(** [raycast(camera, scene)]: the array returned and the object afterwards. *)
Definition raycast (camera : Camera) (scene : Scene) (c : t)
    : list Intersection * t :=
  match normalisedMousePosition c with
  | Some position => (intersectObjects position camera scene, mk None)
  | None => ([], c)
  end.

End Raycast.

End ClickHandler.

(** ** The smoother on binary64 numbers *)

(** The two angle functions once more, on the binary64 numbers JavaScript
    computes with, to run them as they run. *)
Module Binary64.

Import PrimFloat.

Local Open Scope float_scope.

Definition Math_PI : float := 0x1.921fb54442d18p+1.
Definition TWO_PI : float := 2 * Math_PI.

Definition gtb (x y : float) : bool := ltb y x.
Definition geb (x y : float) : bool := leb y x.

(** [_orderAngle(a, b, range)] *)
Definition _orderAngle (a b range : float) : float * float :=
  if ((gtb b a && ltb (abs (b - a)) (range / 2))
      || (gtb a b && gtb (abs (b - a)) (range / 2)))%bool
  then (a, b)
  else (b, a).

(** [_getSmoothedAngle(a, b, k, range)] *)
Definition _getSmoothedAngle (a b k range : float) : float :=
  let angles := _orderAngle a b range in
  let angleshift := fst angles in
  let origAnglesRight := snd angles in
  let angles_left := 0 in
  let angles_right := snd angles - angleshift in
  let angles_right :=
    if ltb angles_right 0 then angles_right + range else angles_right in
  let newangle :=
    if eqb origAnglesRight b
    then (1 - k) * angles_right + k * angles_left
    else k * angles_right + (1 - k) * angles_left in
  let newangle := newangle + angleshift in
  if geb newangle range then newangle - range else newangle.

End Binary64.

Import JS DeviceOrientationControls.

(** ** Notions the properties are stated with *)

(** The screen-rotation offset is one of the three values
    [onScreenOrientationChangeEvent] writes. *)
Definition offsetInvariant (scope : Controls) : Prop :=
  orientationOffset scope = 0 \/
  orientationOffset scope = HALF_PI \/
  orientationOffset scope = - HALF_PI.



(** [x mod m] for [0 < m], the representative in [[0, m)]. *)
Definition Qmodulo (x m : Q) : Q := x - m * inject_Z (Qfloor (x / m)).

(** Number of calls of the handler [h] among the calls [cs]. *)
Definition calls {Params : Type} (h : EventEmitter.Handler)
    (cs : list (EventEmitter.Handler * Params)) : nat :=
  List.length (filter (fun c => Nat.eqb (fst c) h) cs).

(** The handlers an event has: those of its array, none where the object has
    no array for it. *)
Definition handlersOf (e : EventEmitter.t) (n : string)
    : list EventEmitter.Handler :=
  match e n with
  | EventEmitter.array l => l
  | _ => []
  end.

(** Number of times [h] is registered for the event [n]. *)
Definition registrations (e : EventEmitter.t) (n : string)
    (h : EventEmitter.Handler) : nat :=
  match e n with
  | EventEmitter.array l => count_occ Nat.eq_dec l h
  | _ => 0%nat
  end.

(** A sample whose angles are in the ranges browsers report, bounds
    included: alpha from 0 to 360, beta from -180 to 180, gamma from -90 to
    90. *)
Definition sampleInRange (device : Sample.t) : Prop :=
  0 <= Sample.alpha device <= 360 /\
  -180 <= Sample.beta device <= 180 /\
  -90 <= Sample.gamma device <= 90.

(** The ranges of the angles [update] keeps while it smooths, bounds
    included: alpha and the shifted beta on the full circle, the shifted
    gamma on the half circle. *)
Definition lastInRange (o : Last.t) : Prop :=
  0 <= Last.alpha o <= TWO_PI /\
  0 <= Last.beta o <= TWO_PI /\
  0 <= Last.gamma o <= Math_PI.

(** The calls of [connect] among the actions. *)
Definition isConnect (a : Action) : bool :=
  match a with
  | call_connect _ => true
  | _ => false
  end.

(** An action whose sensor event, if it is one, has its angles in range,
    bounds included: alpha from -360 to 360, beta from -180 to 180 and gamma
    from -90 to 90. *)
Definition actionInRange (a : Action) : Prop :=
  match a with
  | fire_deviceorientation event =>
      -360 <= nullish (Event.alpha event) 0 <= 360 /\
      -180 <= nullish (Event.beta event) 0 <= 180 /\
      -90 <= nullish (Event.gamma event) 0 <= 90
  | _ => True
  end.

(** ** Reflection of the comparisons *)

Lemma ltb_spec (x y : Q) : reflect (x < y) (ltb x y).
Proof.
  unfold ltb, Qlt. apply iff_reflect. symmetry. apply Z.ltb_lt.
Qed.

Lemma gtb_spec (x y : Q) : reflect (y < x) (gtb x y).
Proof. apply ltb_spec. Qed.

Lemma geb_spec (x y : Q) : reflect (y <= x) (geb x y).
Proof. unfold geb. apply iff_reflect. symmetry. apply Qle_bool_iff. Qed.

Lemma eqb_spec (x y : Q) : reflect (x == y) (eqb x y).
Proof. unfold eqb. apply iff_reflect. symmetry. apply Qeq_bool_iff. Qed.

Lemma truthy_spec (x : Q) : reflect (~ x == 0) (truthy x).
Proof.
  unfold truthy. destruct (Qeq_bool x 0) eqn:E; simpl; constructor.
  - apply Qeq_bool_iff in E. tauto.
  - apply Qeq_bool_neq in E. exact E.
Qed.

(** Splits every comparison of the goal into its two outcomes. *)
Ltac split_tests :=
  repeat match goal with
    | |- context [ltb ?x ?y] => destruct (ltb_spec x y)
    | |- context [gtb ?x ?y] => destruct (gtb_spec x y)
    | |- context [geb ?x ?y] => destruct (geb_spec x y)
    | |- context [eqb ?x ?y] => destruct (eqb_spec x y)
    | |- context [truthy ?x] => destruct (truthy_spec x)
    end.

(** Linear arithmetic over [Q] after writing the halves as constants. *)
Ltac halves := unfold Qdiv in *; change (/ 2) with (1 # 2) in *.
Ltac qlra := halves; lra.

(** Replaces every absolute value of the context by its two cases. *)
Ltac abs_cases :=
  repeat match goal with
    | H : context [Qabs ?x] |- _ => revert H; apply (Qabs_case x); intros
    | |- context [Qabs ?x] => apply (Qabs_case x); intro
    end.

(** ** The ordering rule *)

Lemma orderAngle_keep (a b range : Q) :
  (a < b /\ b - a < range / 2) \/ (b < a /\ range / 2 < a - b) ->
  _orderAngle a b range = {| left := a; right := b |}.
Proof.
  intros H. unfold _orderAngle, abs.
  split_tests; cbn [andb orb]; try reflexivity; exfalso; abs_cases; qlra.
Qed.

Lemma orderAngle_swap (a b range : Q) :
  (a < b -> range / 2 <= b - a) -> (b < a -> a - b <= range / 2) ->
  _orderAngle a b range = {| left := b; right := a |}.
Proof.
  intros H1 H2. unfold _orderAngle, abs.
  split_tests; cbn [andb orb]; try reflexivity; exfalso; abs_cases; qlra.
Qed.

(** ** Arcs *)

Lemma scale_bounds (k d : Q) :
  0 < k <= 1 -> 0 <= d -> 0 <= k * d <= d /\ 0 <= (1 - k) * d <= d.
Proof. intros [Hk0 Hk1] Hd. nra. Qed.



(** ** The smoother *)







(** C4.  The deadband filter returns [b] when [|a - b|] is below the
    threshold and [a] otherwise; with threshold 0 it returns [a]. *)
Theorem calcAngleWithThreshold_spec (scope : Controls) (a b : Q) :
  (Qabs (a - b) < orientationChangeThreshold (config scope) ->
   _calcAngleWithThreshold scope a b = b) /\
  (~ Qabs (a - b) < orientationChangeThreshold (config scope) ->
   _calcAngleWithThreshold scope a b = a) /\
  (orientationChangeThreshold (config scope) == 0 ->
   _calcAngleWithThreshold scope a b = a).
Proof.
  unfold _calcAngleWithThreshold, abs.
  destruct (ltb_spec (Qabs (a - b)) (orientationChangeThreshold (config scope)))
    as [Hlt | Hge].
  - repeat split; intros H; try reflexivity.
    + contradiction.
    + exfalso. pose proof (Qabs_nonneg (a - b)). lra.
  - repeat split; intros H; try reflexivity. contradiction.
Qed.

(** With a threshold of one tenth, a change of one twentieth is suppressed and
    a change of one half passes; with the constructor's threshold 0 every
    change passes. *)
Lemma calcAngleWithThreshold_spec_witness :
  let w := mkWindow None None false false in
  let coarse :=
    construct w Three.Identity (mkOptions None (Some (1 # 10)) None None None) in
  _calcAngleWithThreshold coarse (21 # 20) 1 = 1 /\
  _calcAngleWithThreshold coarse (3 # 2) 1 = (3 # 2) /\
  _calcAngleWithThreshold (construct w Three.Identity noOptions) (21 # 20) 1
  = (21 # 20).
Proof.
  cbv zeta. split; [|split].
  - apply (proj1 (calcAngleWithThreshold_spec _ (21 # 20) 1)). reflexivity.
  - apply (proj1 (proj2 (calcAngleWithThreshold_spec _ (3 # 2) 1))).
    intros H. discriminate H.
  - apply (proj2 (proj2 (calcAngleWithThreshold_spec _ (21 # 20) 1))).
    reflexivity.
Defined.

(** C10.  When [a] and [b] differ and are exactly half the range apart,
    [_orderAngle] returns [{left: b, right: a}], and [_getSmoothedAngle]
    moves from [b] upward by [k] times half the range, wrapping once at
    [range]. *)
Theorem half_circle_tie_break (a b k range : Q) :
  ~ a == b -> Qabs (a - b) == range / 2 ->
  _orderAngle a b range = {| left := b; right := a |} /\
  (b + k * (range / 2) < range ->
   _getSmoothedAngle a b k range == b + k * (range / 2)) /\
  (range <= b + k * (range / 2) ->
   _getSmoothedAngle a b k range == b + k * (range / 2) - range).
Proof.
  intros Hne Hhalf.
  assert (O : _orderAngle a b range = {| left := b; right := a |}).
  { apply orderAngle_swap; intros; abs_cases; qlra. }
  split; [exact O|].
  unfold _getSmoothedAngle. rewrite O. cbn [left right].
  assert (D : (0 < a - b /\ k * (a - b) == k * (range / 2)) \/
              (a - b < 0 /\ k * (a - b + range) == k * (range / 2))).
  { revert Hhalf. apply (Qabs_case (a - b)); intros Hs Hhalf.
    - left. split.
      + destruct (Qlt_le_dec 0 (a - b)) as [|Hz]; [assumption|].
        exfalso. apply Hne. lra.
      + rewrite Hhalf. reflexivity.
    - right. split.
      + destruct (Qlt_le_dec (a - b) 0) as [|Hz]; [assumption|].
        exfalso. apply Hne. lra.
      + setoid_replace (a - b + range) with (range / 2) by qlra.
        reflexivity. }
  generalize dependent (k * (range / 2)). intros kr D.
  split; intros Hw; split_tests; try contradiction;
    destruct D as [[Hs K] | [Hs K]]; lra.
Qed.

(** Half a circle apart the order of the arguments decides: from 90 halfway
    to 270 the smoother goes up through 0, from 270 halfway to 90 it goes up
    through 180. *)
Lemma half_circle_tie_break_witness :
  (_orderAngle 270 90 360 = {| left := 90; right := 270 |} /\
   _getSmoothedAngle 270 90 (1 # 2) 360 == 180) /\
  (_orderAngle 90 270 360 = {| left := 270; right := 90 |} /\
   _getSmoothedAngle 90 270 (1 # 2) 360 == 0).
Proof.
  split.
  - destruct (half_circle_tie_break 270 90 (1 # 2) 360) as (O & S & _);
      [intros H; discriminate H | reflexivity |].
    split; [exact O|]. rewrite S; reflexivity.
  - destruct (half_circle_tie_break 90 270 (1 # 2) 360) as (O & _ & S);
      [intros H; discriminate H | reflexivity |].
    split; [exact O|]. rewrite S; [reflexivity|]. intros H. discriminate H.
Defined.

(** ** Permissions *)

Local Open Scope string_scope.
Local Open Scope list_scope.

(** C5 as stated fails: the callback of [catch] also runs when a handler of
    the granted event throws, so a grant whose handler throws an [Error],
    which [JSON.stringify] turns into an empty object, gives the granted event
    and one error event. *)
Lemma grant_with_throwing_handler :
  let w := mkWindow (Some true) (Some true) false true in
  let scope := construct w Three.Identity noOptions in
  let dispatch : Dispatch :=
    fun e => if String.eqb (fst e) "deviceorientationgranted"
             then Some (text "{}") else None in
  fst (requestOrientationPermissions w dispatch (resolves "granted"))
  = [permissionGranted; permissionFailed (Some "{}")] /\
  emitted "deviceorientationgranted"
    (fst (init w scope dispatch [resolves "granted"])) = 1%nat /\
  emitted "deviceorientationerror"
    (fst (init w scope dispatch [resolves "granted"])) = 1%nat.
Proof. cbv zeta. split; [reflexivity|]. split; reflexivity. Qed.

(** C5, amended.  Whatever the handlers do, [init] without the orientation
    API emits one error, with the code NOT_SUPPORTED, and no granted event,
    and [init] with the API in an insecure context emits one error with the
    code NO_HTTPS.  A permission request that resolves to "granted" emits one
    granted event and no error, alone and when [init] reaches it through one
    gesture of the user, provided the handlers of the granted event return;
    when one of them throws, the granted event is followed by the emissions of
    the callback of [catch], which are at most one error, with the code
    PERMISSION_FAILED. *)
Theorem init_notifications (w : Window) (scope : Controls)
    (dispatch : Dispatch) (user : Gestures) :
  (DeviceOrientationEvent w = None ->
   emitted "deviceorientationerror" (fst (init w scope dispatch user)) = 1%nat /\
   emitted "deviceorientationgranted" (fst (init w scope dispatch user)) = 0%nat /\
   map errorCode (fst (init w scope dispatch user))
   = [Some "LOCAR_DEVICE_ORIENTATION_NOT_SUPPORTED"]) /\
  (DeviceOrientationEvent w <> None -> isSecureContext w = Some false ->
   emitted "deviceorientationerror" (fst (init w scope dispatch user)) = 1%nat /\
   emitted "deviceorientationgranted" (fst (init w scope dispatch user)) = 0%nat /\
   map errorCode (fst (init w scope dispatch user))
   = [Some "LOCAR_DEVICE_ORIENTATION_NO_HTTPS"]) /\
  (DeviceOrientationEvent w = Some true ->
   (dispatch permissionGranted = None ->
    fst (requestOrientationPermissions w dispatch (resolves "granted"))
    = [("deviceorientationgranted", target_this)] /\
    (isSecureContext w <> Some false ->
     enablePermissionDialog (config scope) = true ->
     user = [resolves "granted"] ->
     emitted "deviceorientationgranted" (fst (init w scope dispatch user))
     = 1%nat /\
     emitted "deviceorientationerror" (fst (init w scope dispatch user))
     = 0%nat)) /\
   (forall thrown, dispatch permissionGranted = Some thrown ->
    fst (requestOrientationPermissions w dispatch (resolves "granted"))
    = ("deviceorientationgranted", target_this) :: catchCallback thrown /\
    (List.length (catchCallback thrown) <= 1)%nat /\
    Forall (fun e => fst e = "deviceorientationerror" /\
                     errorCode e
                     = Some "LOCAR_DEVICE_ORIENTATION_PERMISSION_FAILED")
      (catchCallback thrown))).
Proof.
  split; [|split].
  - intros H. unfold init. rewrite H. repeat split.
  - intros H S. unfold init.
    destruct (DeviceOrientationEvent w); [|contradiction].
    rewrite S. repeat split.
  - intros H. split.
    + intros G.
      assert (R : fst (requestOrientationPermissions w dispatch
                         (resolves "granted"))
                  = [("deviceorientationgranted", target_this)]).
      { unfold requestOrientationPermissions, thenCallback, emit.
        rewrite H. cbn. fold permissionGranted. rewrite G. reflexivity. }
      split; [exact R|].
      intros S D U. subst user.
      unfold init, obtainPermissionGesture,
        createObtainPermissionGestureDialog.
      rewrite H, D.
      destruct (isSecureContext w) as [[|]|]; try contradiction;
        destruct (preferConfirmDialog (config scope));
        cbn [andb flat_map fst]; rewrite ?app_nil_r, R; split; reflexivity.
    + intros thrown G. split; [|split].
      * unfold requestOrientationPermissions, thenCallback, emit.
        rewrite H. cbn. fold permissionGranted. rewrite G. reflexivity.
      * destruct thrown; cbn; lia.
      * destruct thrown; repeat constructor.
Qed.

Lemma init_notifications_witness :
  let quiet : Dispatch := fun _ => None in
  fst (init (mkWindow None (Some true) false false)
         (construct (mkWindow None (Some true) false false) Three.Identity
            noOptions)
         quiet [])
  = [("deviceorientationerror",
      failure "LOCAR_DEVICE_ORIENTATION_NOT_SUPPORTED"
        "Device orientation API not supported" None)] /\
  emitted "deviceorientationerror"
    (fst (init (mkWindow (Some false) (Some false) false false)
            (construct (mkWindow (Some false) (Some false) false false)
               Three.Identity noOptions) quiet [])) = 1%nat /\
  emitted "deviceorientationgranted"
    (fst (init (mkWindow (Some true) (Some true) false true)
            (construct (mkWindow (Some true) (Some true) false true)
               Three.Identity noOptions) quiet [resolves "granted"]))
  = 1%nat.
Proof.
  cbv zeta. split; [reflexivity|]. split.
  - apply (proj1 (proj2 (init_notifications
             (mkWindow (Some false) (Some false) false false)
             (construct (mkWindow (Some false) (Some false) false false)
                Three.Identity noOptions) (fun _ => None) []))).
    + intros H. discriminate H.
    + reflexivity.
  - apply (proj1 (proj2 (proj2 (init_notifications
             (mkWindow (Some true) (Some true) false true)
             (construct (mkWindow (Some true) (Some true) false true)
                Three.Identity noOptions) (fun _ => None)
             [resolves "granted"])) eq_refl)).
    + reflexivity.
    + intros H. discriminate H.
    + reflexivity.
    + reflexivity.
Defined.

Local Close Scope string_scope.

(** ** update, disconnect and the accessors *)

(** C7.  While [enabled] is false [update] returns the object as it was: the
    quaternion of the target, [lastOrientation], [lastCompassY], [alphaOffset]
    and [orientationOffset] keep their values. *)
Theorem update_disabled_is_noop (w : Window) (scope : Controls) :
  enabled scope = false ->
  update w scope = scope /\
  quaternion (update w scope) = quaternion scope /\
  lastOrientation (update w scope) = lastOrientation scope /\
  lastCompassY (update w scope) = lastCompassY scope /\
  alphaOffset (update w scope) = alphaOffset scope /\
  orientationOffset (update w scope) = orientationOffset scope.
Proof.
  intros H.
  assert (E : update w scope = scope).
  { unfold update. rewrite H. reflexivity. }
  rewrite E. repeat split.
Qed.

(** A caller pauses a running object by clearing its public field [enabled];
    the sample stays, and the next tick leaves everything as it is. *)
Lemma update_disabled_is_noop_witness :
  let w := mkWindow (Some true) (Some true) false true in
  let scope :=
    set_enabled false
      (run w
         (construct w Three.Identity
            (mkOptions (Some (1 # 2)) None None None None))
         [call_connect (Some 90);
          fire_deviceorientation
            (Event.mk (Some 10) (Some 1) (Some 2) (Some 80));
          call_update;
          fire_deviceorientation
            (Event.mk (Some 20) (Some 5) (Some 5) (Some 90))]) in
  deviceOrientation scope = Some (Sample.mk 20 5 5 (Some 90) None) /\
  update w scope = scope.
Proof.
  cbv zeta. split; [reflexivity|].
  apply update_disabled_is_noop. reflexivity.
Defined.

(** C8.  [disconnect] sets [enabled] to false and clears the sample, so the
    three angle accessors return 0; it keeps [alphaOffset] and
    [orientationOffset]; a second [disconnect] changes nothing more. *)
Theorem disconnect_clears_sample (scope : Controls) :
  enabled (disconnect scope) = false /\
  deviceOrientation (disconnect scope) = None /\
  getAlpha (disconnect scope) = 0 /\
  getBeta (disconnect scope) = 0 /\
  getGamma (disconnect scope) = 0 /\
  alphaOffset (disconnect scope) = alphaOffset scope /\
  orientationOffset (disconnect scope) = orientationOffset scope /\
  disconnect (disconnect scope) = disconnect scope.
Proof. repeat split. Qed.

(** C9.  A stored angle that is exactly 0 is read back as 0: [getAlpha] does
    not add [alphaOffset] to it, and [getBeta] and [getGamma] return 0. *)
Theorem accessors_at_zero (scope : Controls) (device : Sample.t) :
  deviceOrientation scope = Some device ->
  (Sample.alpha device == 0 -> getAlpha scope = 0) /\
  (Sample.beta device == 0 -> getBeta scope = 0) /\
  (Sample.gamma device == 0 -> getGamma scope = 0).
Proof.
  intros H. unfold getAlpha, getBeta, getGamma. rewrite H.
  repeat split; intros Z; split_tests; try reflexivity; contradiction.
Qed.

(** On iOS an event with alpha 0 and compass heading 90 sets [alphaOffset] to
    270 degrees in radians; [getAlpha] is 0 all the same. *)
Lemma accessors_at_zero_witness :
  let w := mkWindow (Some true) (Some true) false true in
  let scope :=
    run w (construct w Three.Identity noOptions)
      [call_connect None;
       fire_deviceorientation (Event.mk (Some 0) (Some 0) (Some 0) (Some 90))] in
  alphaOffset scope == MathUtils.degToRad 270 /\
  ~ alphaOffset scope == 0 /\
  getAlpha scope = 0 /\ getBeta scope = 0 /\ getGamma scope = 0.
Proof.
  cbv zeta. split; [reflexivity|]. split; [intros H; discriminate H|].
  destruct (accessors_at_zero
    (run (mkWindow (Some true) (Some true) false true)
       (construct (mkWindow (Some true) (Some true) false true)
          Three.Identity noOptions)
       [call_connect None;
        fire_deviceorientation (Event.mk (Some 0) (Some 0) (Some 0) (Some 90))])
    (Sample.mk 0 0 0 (Some 90) None) eq_refl) as (Ha & Hb & Hg).
  split; [apply Ha; reflexivity|]. split; [apply Hb; reflexivity|].
  apply Hg; reflexivity.
Defined.

(** ** The stored sample *)

(** C6 as stated fails: off iOS the handler adds 360 to a negative alpha
    once, so an alpha of -400 is stored as -40. *)
Lemma stored_alpha_counterexample :
  let w := mkWindow (Some false) (Some true) true false in
  let scope := run w (construct w Three.Identity noOptions) [call_connect None] in
  let event := Event.mk (Some (-400)) (Some 0) (Some 0) None in
  exists device,
    deviceOrientation (fst (onDeviceOrientationChangeEvent w event scope))
    = Some device /\
    Sample.alpha device == -40 /\ Sample.alpha device < 0.
Proof.
  cbv zeta. eexists. split; [reflexivity|]. split; reflexivity.
Qed.

(** C6, amended.  Off iOS, an event whose alpha is at least -360 is stored
    with an alpha that is not negative: a negative alpha is stored as the sum
    the code computes for it with 360, which is at most 360, an alpha of -10
    as 350, and an alpha that is not negative as it is. *)
Theorem stored_alpha_nonnegative
    (w : Window) (event : Event.t) (scope : Controls) :
  isIOS w = false ->
  -360 <= nullish (Event.alpha event) 0 ->
  exists device,
    deviceOrientation (fst (onDeviceOrientationChangeEvent w event scope))
    = Some device /\
    0 <= Sample.alpha device /\
    (nullish (Event.alpha event) 0 < 0 -> Sample.alpha device <= 360) /\
    (nullish (Event.alpha event) 0 == -10 -> Sample.alpha device == 350) /\
    (0 <= nullish (Event.alpha event) 0 ->
     Sample.alpha device = nullish (Event.alpha event) 0).
Proof.
  intros Hw Hlow. unfold onDeviceOrientationChangeEvent. rewrite Hw.
  cbn [fst set_deviceOrientation deviceOrientation].
  eexists. split; [reflexivity|]. cbn [Sample.alpha].
  destruct (ltb_spec (nullish (Event.alpha event) 0) 0) as [Hneg | Hpos].
  - split; [lra|]. split; [intros _; lra|]. split.
    + intros H. rewrite H. reflexivity.
    + intros H. exfalso. lra.
  - split; [lra|]. split; [intros H; exfalso; lra|]. split.
    + intros H. exfalso. lra.
    + intros _. reflexivity.
Qed.

(** An alpha of -10 is stored as 350. *)
Lemma stored_alpha_nonnegative_witness :
  let w := mkWindow (Some false) (Some true) true false in
  let scope := run w (construct w Three.Identity noOptions) [call_connect None] in
  let event := Event.mk (Some (-10)) (Some 0) (Some 0) None in
  exists device,
    deviceOrientation (fst (onDeviceOrientationChangeEvent w event scope))
    = Some device /\
    Sample.alpha device == 350.
Proof.
  cbv zeta.
  destruct (stored_alpha_nonnegative
              (mkWindow (Some false) (Some true) true false)
              (Event.mk (Some (-10)) (Some 0) (Some 0) None)
              (run (mkWindow (Some false) (Some true) true false)
                 (construct (mkWindow (Some false) (Some true) true false)
                    Three.Identity noOptions) [call_connect None])
              eq_refl)
    as (device & Hd & _ & _ & Hten & _).
  - cbn. lra.
  - exists device. split; [exact Hd|]. apply Hten. reflexivity.
Defined.

(** ** The remainder *)





Lemma Qmodulo_range (x m : Q) : 0 < m -> 0 <= Qmodulo x m < m.
Proof.
  intros Hm. unfold Qmodulo.
  assert (E : m * (x / m) == x) by (apply Qmult_div_r; lra).
  pose proof (Qfloor_le (x / m)) as L.
  pose proof (Qlt_floor (x / m)) as U. rewrite inject_Z_plus in U.
  generalize dependent (inject_Z (Qfloor (x / m))).
  generalize dependent (x / m). intros q E t L U. change (inject_Z 1) with 1 in U.
  nra.
Qed.

(** Two numbers of [[0, m)] a whole number of [m] apart are equal. *)
Lemma congruent_in_range (m r r' : Q) (z : Z) :
  0 <= r < m -> 0 <= r' < m -> r - r' == m * inject_Z z -> r == r'.
Proof.
  intros Hr Hr' E.
  assert (Z0 : z = 0%Z).
  { assert (L : inject_Z (-1) < inject_Z z).
    { change (inject_Z (-1)) with (-(1)). nra. }
    assert (U : inject_Z z < inject_Z 1).
    { change (inject_Z 1) with 1. nra. }
    rewrite <- Zlt_Qlt in L, U. lia. }
  subst z. change (inject_Z 0) with 0 in E. lra.
Qed.


(** ** Reachable states *)

Lemma onScreenOrientationChangeEvent_offset w angle scope :
  offsetInvariant scope ->
  offsetInvariant (onScreenOrientationChangeEvent w angle scope).
Proof.
  intros I. unfold onScreenOrientationChangeEvent.
  destruct (isIOS w); [|exact I].
  unfold offsetInvariant.
  repeat match goal with
    | |- context [if ?c then _ else _] => destruct c
    end; cbn; auto.
Qed.

Lemma update_offset w scope :
  orientationOffset (update w scope) = orientationOffset scope.
Proof.
  unfold update.
  destruct (enabled scope); [|reflexivity]. cbn [negb].
  destruct (deviceOrientation scope); [|reflexivity].
  destruct (isIOS w); reflexivity.
Qed.

Lemma step_offset w scope a :
  offsetInvariant scope -> offsetInvariant (step w scope a).
Proof.
  intros I. destruct a; cbn [step].
  - unfold connect. cbv zeta.
    pose proof (onScreenOrientationChangeEvent_offset w angle scope I) as J.
    exact J.
  - exact I.
  - unfold offsetInvariant. rewrite update_offset. exact I.
  - exact I.
  - exact I.
  - destruct (listensDeviceOrientation scope); [|exact I].
    unfold onDeviceOrientationChangeEvent.
    destruct (isIOS w); exact I.
  - destruct (listensOrientationChange scope); [|exact I].
    apply onScreenOrientationChangeEvent_offset. exact I.
Qed.

Lemma run_offset w actions :
  forall scope, offsetInvariant scope -> offsetInvariant (run w scope actions).
Proof.
  induction actions as [|a actions IH]; intros scope I; [exact I|].
  cbn [run fold_left]. apply IH. apply step_offset. exact I.
Qed.

Lemma reachable_offset w scope : reachable w scope -> offsetInvariant scope.
Proof.
  intros (object & options & actions & ->).
  apply run_offset. left. reflexivity.
Qed.

(** ** The heading *)

Lemma Qmodulo_small (x m : Q) : 0 <= x < m -> Qmodulo x m == x.
Proof.
  intros Hx.
  assert (Hm : 0 < m) by lra.
  apply (congruent_in_range m _ _ (- Qfloor (x / m))%Z
           (Qmodulo_range x m Hm) Hx).
  unfold Qmodulo. rewrite inject_Z_opp. ring.
Qed.


(** C1.  On iOS, connected with the screen upright, an event with compass
    heading 0 leads to a state whose heading is 360: outside [[0, 360)] and
    not the value [(360 - 0 + 0) mod 360], which is 0.  Before any sample the
    heading is 0. *)
Theorem heading_at_north :
  let w := mkWindow (Some true) (Some true) false true in
  let scope :=
    run w (construct w Three.Identity noOptions)
      [call_connect (Some 0);
       fire_deviceorientation (Event.mk (Some 0) (Some 0) (Some 0) (Some 0))] in
  reachable w scope /\
  orientationOffset scope = 0 /\
  deviceOrientation scope = Some (Sample.mk 0 0 0 (Some 0) None) /\
  getCorrectedHeading w scope == 360 /\
  ~ getCorrectedHeading w scope < 360 /\
  Qmodulo (360 - 0 + orientationOffset scope * (180 / Math_PI)) 360 == 0 /\
  getCorrectedHeading w (construct w Three.Identity noOptions) = 0.
Proof.
  cbv zeta. split.
  - exists Three.Identity, noOptions. eexists. reflexivity.
  - repeat split. intros H. discriminate H.
Qed.

(** ** The event emitter *)

Local Open Scope string_scope.
Local Open Scope list_scope.

Lemma indexOf_absent (l : list EventEmitter.Handler) (x : EventEmitter.Handler) :
  EventEmitter.indexOf l x = None <-> ~ In x l.
Proof.
  induction l as [|y l IH]; cbn [EventEmitter.indexOf In].
  - tauto.
  - destruct (Nat.eqb_spec y x) as [E | N].
    + split; [discriminate | tauto].
    + destruct (EventEmitter.indexOf l x) as [i|].
      * split; [discriminate|]. intros H. exfalso.
        assert (A : ~ In x l) by tauto.
        apply IH in A. discriminate A.
      * assert (A : ~ In x l) by (apply IH; reflexivity). tauto.
Qed.

Lemma indexOf_first (l : list EventEmitter.Handler) (x : EventEmitter.Handler)
    (i : nat) :
  EventEmitter.indexOf l x = Some i ->
  exists l1 l2,
    l = l1 ++ x :: l2 /\ ~ In x l1 /\ List.length l1 = i /\
    EventEmitter.splice1 l i = l1 ++ l2.
Proof.
  revert i. induction l as [|y l IH]; intros i; cbn [EventEmitter.indexOf].
  - discriminate.
  - destruct (Nat.eqb_spec y x) as [E | N].
    + intros [= <-]. subst y. exists [], l. repeat split. intros [].
    + destruct (EventEmitter.indexOf l x) as [j|]; [|discriminate].
      intros [= <-]. destruct (IH j eq_refl) as (l1 & l2 & E & F & L & S).
      exists (y :: l1), l2. repeat split.
      * rewrite E. reflexivity.
      * intros [A | A]; [contradiction | exact (F A)].
      * cbn. rewrite L. reflexivity.
      * unfold EventEmitter.splice1 in *. cbn [firstn skipn app].
        rewrite <- S. reflexivity.
Qed.

Lemma assign_same (e : EventEmitter.t) (n : string) l :
  EventEmitter.assign e n l n = EventEmitter.array l.
Proof. unfold EventEmitter.assign. rewrite String.eqb_refl. reflexivity. Qed.

Lemma assign_other (e : EventEmitter.t) (n m : string) l :
  m <> n -> EventEmitter.assign e n l m = e m.
Proof.
  intros H. unfold EventEmitter.assign.
  destruct (String.eqb_spec m n); [contradiction | reflexivity].
Qed.

(** What [on] leaves in the object: the handler at the end of the array of
    its event, the other events as they were. *)
Lemma on_handlers (e : EventEmitter.t) (n : string) (h : EventEmitter.Handler) :
  e n <> EventEmitter.inherited ->
  exists e',
    EventEmitter.on e n h = EventEmitter.ok e' /\
    e' n = EventEmitter.array (handlersOf e n ++ [h]) /\
    forall m, m <> n -> e' m = e m.
Proof.
  intros H. unfold EventEmitter.on, handlersOf.
  destruct (e n) as [|l|] eqn:E; [| |contradiction].
  - rewrite assign_same. eexists. split; [reflexivity|].
    split; [apply assign_same|].
    intros m D. rewrite !assign_other by exact D. reflexivity.
  - rewrite E. eexists. split; [reflexivity|].
    split; [apply assign_same|].
    intros m D. apply assign_other. exact D.
Qed.

Lemma on_inherited (e : EventEmitter.t) (n : string)
    (h : EventEmitter.Handler) :
  e n = EventEmitter.inherited ->
  EventEmitter.on e n h = EventEmitter.TypeError.
Proof. intros H. unfold EventEmitter.on. rewrite !H. reflexivity. Qed.

(** [forEach] over an array with one more handler at its end. *)
Lemma forEach_snoc {Params : Type}
    (raises : EventEmitter.Handler -> Params -> bool)
    (l : list EventEmitter.Handler) (h : EventEmitter.Handler) (p : Params) :
  EventEmitter.forEach raises (l ++ [h]) p
  = match snd (EventEmitter.forEach raises l p) with
    | EventEmitter.returned =>
        (fst (EventEmitter.forEach raises l p) ++ [(h, p)],
         if raises h p then EventEmitter.thrown else EventEmitter.returned)
    | _ => EventEmitter.forEach raises l p
    end.
Proof.
  induction l as [|x l IH]; cbn [app EventEmitter.forEach].
  - destruct (raises h p); reflexivity.
  - destruct (raises x p); [reflexivity|].
    rewrite IH.
    destruct (EventEmitter.forEach raises l p) as [cs []]; reflexivity.
Qed.

Lemma emit_handlersOf {Params : Type}
    (raises : EventEmitter.Handler -> Params -> bool) (e : EventEmitter.t)
    (n : string) (p : Params) :
  e n <> EventEmitter.inherited ->
  EventEmitter.emit raises e n p
  = EventEmitter.forEach raises (handlersOf e n) p.
Proof.
  intros H. unfold EventEmitter.emit, handlersOf.
  destruct (e n); [reflexivity | reflexivity | contradiction].
Qed.

(** X1.  For an event name that [Object.prototype] has no member for,
    [on(n, h)] returns, and an [emit] of [n] afterwards makes the calls it
    made before, in the same order, and then, if none of them threw, calls
    [h]; an [emit] of another event does what it did before.  For a name
    taken from [Object.prototype] and not assigned, [on] raises a
    [TypeError]. *)
Theorem emit_after_on {Params : Type}
    (raises : EventEmitter.Handler -> Params -> bool) (e : EventEmitter.t)
    (n : string) (h : EventEmitter.Handler) (p : Params) :
  (e n = EventEmitter.inherited ->
   EventEmitter.on e n h = EventEmitter.TypeError) /\
  (e n <> EventEmitter.inherited ->
   exists e',
     EventEmitter.on e n h = EventEmitter.ok e' /\
     (snd (EventEmitter.emit raises e n p) = EventEmitter.returned ->
      EventEmitter.emit raises e' n p
      = (fst (EventEmitter.emit raises e n p) ++ [(h, p)],
         if raises h p then EventEmitter.thrown else EventEmitter.returned)) /\
     (snd (EventEmitter.emit raises e n p) = EventEmitter.thrown ->
      EventEmitter.emit raises e' n p = EventEmitter.emit raises e n p) /\
     (forall m, m <> n ->
      EventEmitter.emit raises e' m p = EventEmitter.emit raises e m p)).
Proof.
  split; [apply on_inherited|].
  intros H. destruct (on_handlers e n h H) as (e' & O & S & K).
  exists e'. split; [exact O|].
  assert (E' : EventEmitter.emit raises e' n p
               = EventEmitter.forEach raises (handlersOf e n ++ [h]) p).
  { unfold EventEmitter.emit. rewrite S. reflexivity. }
  rewrite E', forEach_snoc, (emit_handlersOf raises e n p H).
  split; [|split].
  - intros R. rewrite R. reflexivity.
  - intros R. rewrite R. reflexivity.
  - intros m D. unfold EventEmitter.emit. rewrite (K m D). reflexivity.
Qed.

(** A second handler for an event whose first handler returns is called
    after it; where the first handler throws, the second is not called. *)
Lemma emit_after_on_witness :
  let quiet : EventEmitter.Handler -> unit -> bool := fun _ _ => false in
  let first_throws : EventEmitter.Handler -> unit -> bool :=
    fun h _ => Nat.eqb h 1 in
  exists e1 e2,
    EventEmitter.on EventEmitter.create "a" 1%nat = EventEmitter.ok e1 /\
    EventEmitter.on e1 "a" 2%nat = EventEmitter.ok e2 /\
    EventEmitter.emit quiet e2 "a" tt
    = ([(1%nat, tt); (2%nat, tt)], EventEmitter.returned) /\
    EventEmitter.emit first_throws e2 "a" tt
    = ([(1%nat, tt)], EventEmitter.thrown) /\
    EventEmitter.on e2 "toString" 3%nat = EventEmitter.TypeError.
Proof.
  cbv zeta.
  destruct (proj2 (emit_after_on (fun _ (_ : unit) => false)
                     EventEmitter.create "a" 1%nat tt))
    as (e1 & O1 & _); [intros H; discriminate H|].
  assert (E1 : e1 = EventEmitter.assign
                      (EventEmitter.assign EventEmitter.create "a" [])
                      "a" [1%nat])
    by (injection O1 as <-; reflexivity).
  destruct (proj2 (emit_after_on (fun _ (_ : unit) => false)
                     e1 "a" 2%nat tt))
    as (e2 & O2 & R & _); [subst e1; intros H; discriminate H|].
  exists e1, e2. split; [exact O1|]. split; [exact O2|].
  split; [|split].
  - rewrite R; subst e1; reflexivity.
  - subst e1. injection O2 as <-. reflexivity.
  - apply (proj1 (emit_after_on (fun _ (_ : unit) => false)
                    e2 "toString" 3%nat tt)).
    subst e1. injection O2 as <-. reflexivity.
Defined.

(** What [off] takes out of the array. *)
Lemma off_first (e : EventEmitter.t) (n : string)
    (h : EventEmitter.Handler) (l : list EventEmitter.Handler) :
  e n = EventEmitter.array l -> In h l ->
  exists l1 l2 e',
    l = l1 ++ h :: l2 /\ ~ In h l1 /\
    EventEmitter.off e n h = EventEmitter.ok e' /\
    e' n = EventEmitter.array (l1 ++ l2) /\
    forall m, m <> n -> e' m = e m.
Proof.
  intros E I. unfold EventEmitter.off. rewrite E.
  destruct (EventEmitter.indexOf l h) as [i|] eqn:X.
  - destruct (indexOf_first l h i X) as (l1 & l2 & L & F & _ & S).
    exists l1, l2. eexists. split; [exact L|]. split; [exact F|].
    split; [reflexivity|]. split.
    + rewrite assign_same, S. reflexivity.
    + intros m H. apply assign_other. exact H.
  - exfalso. apply (proj1 (indexOf_absent l h) X I).
Qed.

(** X2.  [off(n, h)] with [h] among the handlers of [n] takes out the earliest
    registration of [h] and nothing else: the handlers before it and after it
    keep their order, and the other events keep their handlers. *)
Theorem off_removes_earliest (e : EventEmitter.t) (n : string)
    (h : EventEmitter.Handler) (l : list EventEmitter.Handler) :
  e n = EventEmitter.array l -> In h l ->
  exists l1 l2 e',
    l = l1 ++ h :: l2 /\ ~ In h l1 /\
    EventEmitter.off e n h = EventEmitter.ok e' /\
    e' n = EventEmitter.array (l1 ++ l2) /\
    forall m, m <> n -> e' m = e m.
Proof. exact (off_first e n h l). Qed.

(** A handler registered twice, before and after another one: [off] takes
    out the earlier registration, so the handler is now called last. *)
Lemma off_removes_earliest_witness :
  exists e e',
    EventEmitter.andThen
      (EventEmitter.andThen (EventEmitter.on EventEmitter.create "a" 1%nat)
         (fun e => EventEmitter.on e "a" 2%nat))
      (fun e => EventEmitter.on e "a" 1%nat)
    = EventEmitter.ok e /\
    e "a" = EventEmitter.array [1; 2; 1]%nat /\
    EventEmitter.off e "a" 1%nat = EventEmitter.ok e' /\
    e' "a" = EventEmitter.array [2; 1]%nat.
Proof.
  eexists.
  destruct (off_removes_earliest
              (EventEmitter.assign
                 (EventEmitter.assign
                    (EventEmitter.assign
                       (EventEmitter.assign EventEmitter.create "a" [])
                       "a" [1%nat])
                    "a" [1; 2]%nat)
                 "a" [1; 2; 1]%nat)
              "a" 1%nat [1; 2; 1]%nat eq_refl (or_introl eq_refl))
    as (l1 & l2 & e' & _ & _ & O & _).
  exists e'. split; [reflexivity|]. split; [reflexivity|].
  split; [exact O|].
  injection O as <-. reflexivity.
Defined.

(** X3.  [off] of a handler that is not registered for the event, or of an
    event that has no array, returns and leaves the object as it is, for an
    event name that [Object.prototype] has no member for; for a name taken
    from [Object.prototype] and not assigned, [off] raises a [TypeError]. *)
Theorem off_absent_is_noop (e : EventEmitter.t) (n : string)
    (h : EventEmitter.Handler) :
  (e n = EventEmitter.inherited ->
   EventEmitter.off e n h = EventEmitter.TypeError) /\
  (e n <> EventEmitter.inherited ->
   (forall l, e n = EventEmitter.array l -> ~ In h l) ->
   EventEmitter.off e n h = EventEmitter.ok e).
Proof.
  unfold EventEmitter.off. split.
  - intros H. rewrite H. reflexivity.
  - intros H A. destruct (e n) as [|l|] eqn:E;
      [reflexivity | | contradiction].
    rewrite (proj2 (indexOf_absent l h) (A l eq_refl)). reflexivity.
Qed.

Lemma off_absent_is_noop_witness :
  exists e,
    EventEmitter.on EventEmitter.create "a" 1%nat = EventEmitter.ok e /\
    e "a" = EventEmitter.array [1%nat] /\
    EventEmitter.off e "a" 2%nat = EventEmitter.ok e /\
    EventEmitter.off e "b" 1%nat = EventEmitter.ok e /\
    EventEmitter.off e "constructor" 1%nat = EventEmitter.TypeError.
Proof.
  eexists. split; [reflexivity|]. split; [reflexivity|].
  split; [|split].
  - apply (proj2 (off_absent_is_noop _ "a" 2%nat)).
    + intros H. discriminate H.
    + intros l [= <-] [H | []]. discriminate H.
  - apply (proj2 (off_absent_is_noop _ "b" 1%nat)).
    + intros H. discriminate H.
    + intros l H. discriminate H.
  - apply (proj1 (off_absent_is_noop _ "constructor" 1%nat)).
    reflexivity.
Defined.

Lemma split_at_only_occurrence {A : Type} (x : A) (l0 l1 l2 : list A) :
  l0 ++ [x] = l1 ++ x :: l2 -> ~ In x l0 -> ~ In x l1 -> l1 ++ l2 = l0.
Proof.
  revert l1. induction l0 as [|y l0 IH]; intros l1 L N F.
  - destruct l1 as [|z l1]; cbn in L.
    + injection L as <-. reflexivity.
    + injection L as _ L. destruct l1; discriminate L.
  - destruct l1 as [|z l1]; cbn in L.
    + injection L as <- _. exfalso. apply N. left. reflexivity.
    + injection L as <- L. cbn. f_equal. apply IH.
      * exact L.
      * intros H. apply N. right. exact H.
      * intros H. apply F. right. exact H.
Qed.

(** X4.  For an event name that [Object.prototype] has no member for and a
    handler not yet registered for the event, [on] followed by [off] is not
    seen by any [emit]: both calls return, and afterwards every event calls
    the handlers it called before, in the same order and with the same
    end. *)
Theorem off_undoes_on (e : EventEmitter.t) (n : string)
    (h : EventEmitter.Handler) :
  e n <> EventEmitter.inherited ->
  (forall l, e n = EventEmitter.array l -> ~ In h l) ->
  exists e1 e2,
    EventEmitter.on e n h = EventEmitter.ok e1 /\
    EventEmitter.off e1 n h = EventEmitter.ok e2 /\
    forall (Params : Type) (raises : EventEmitter.Handler -> Params -> bool)
           (m : string) (p : Params),
      EventEmitter.emit raises e2 m p = EventEmitter.emit raises e m p.
Proof.
  intros H A.
  destruct (on_handlers e n h H) as (e1 & O & S & K1).
  assert (I : In h (handlersOf e n ++ [h])).
  { apply in_or_app. right. left. reflexivity. }
  destruct (off_first e1 n h _ S I) as (l1 & l2 & e2 & L & F & R & S2 & K2).
  assert (N : ~ In h (handlersOf e n)).
  { unfold handlersOf. destruct (e n) as [|l|] eqn:E;
      [intros [] | exact (A l eq_refl) | intros []]. }
  pose proof (split_at_only_occurrence h _ l1 l2 L N F) as T.
  exists e1, e2. split; [exact O|]. split; [exact R|].
  intros Params raises m p.
  destruct (String.eqb_spec m n) as [-> | D].
  - rewrite (emit_handlersOf raises e n p H).
    unfold EventEmitter.emit. rewrite S2, T. reflexivity.
  - unfold EventEmitter.emit. rewrite (K2 m D), (K1 m D). reflexivity.
Qed.

Lemma off_undoes_on_witness :
  exists e e1 e2,
    EventEmitter.on EventEmitter.create "a" 1%nat = EventEmitter.ok e /\
    EventEmitter.on e "a" 2%nat = EventEmitter.ok e1 /\
    e1 "a" = EventEmitter.array [1; 2]%nat /\
    EventEmitter.off e1 "a" 2%nat = EventEmitter.ok e2 /\
    EventEmitter.emit (fun _ (_ : unit) => false) e2 "a" tt
    = ([(1%nat, tt)], EventEmitter.returned).
Proof.
  eexists.
  destruct (off_undoes_on
              (EventEmitter.assign
                 (EventEmitter.assign EventEmitter.create "a" [])
                 "a" [1%nat])
              "a" 2%nat)
    as (e1 & e2 & O & R & E).
  - intros H. discriminate H.
  - intros l [= <-] [H | []]. discriminate H.
  - exists e1, e2. split; [reflexivity|]. split; [exact O|].
    split; [|split; [exact R|]].
    + injection O as <-. reflexivity.
    + rewrite E. reflexivity.
Defined.

Lemma calls_app {Params : Type} (h : EventEmitter.Handler)
    (cs ds : list (EventEmitter.Handler * Params)) :
  calls h (cs ++ ds) = (calls h cs + calls h ds)%nat.
Proof. unfold calls. rewrite filter_app, length_app. reflexivity. Qed.

(** The calls of one [forEach]: at most one per registration, and exactly
    one per registration when no handler of the array throws. *)
Lemma calls_forEach {Params : Type}
    (raises : EventEmitter.Handler -> Params -> bool)
    (l : list EventEmitter.Handler) (h : EventEmitter.Handler) (p : Params) :
  (calls h (fst (EventEmitter.forEach raises l p))
   <= count_occ Nat.eq_dec l h)%nat /\
  ((forall x, In x l -> raises x p = false) ->
   calls h (fst (EventEmitter.forEach raises l p))
   = count_occ Nat.eq_dec l h).
Proof.
  induction l as [|x l [IH1 IH2]]; [split; reflexivity|].
  cbn [EventEmitter.forEach count_occ].
  assert (C : forall cs : list (EventEmitter.Handler * Params),
            calls h ((x, p) :: cs)
            = ((if Nat.eq_dec x h then 1 else 0) + calls h cs)%nat).
  { intros cs. unfold calls. cbn [filter fst].
    destruct (Nat.eqb_spec x h); destruct (Nat.eq_dec x h);
      try contradiction; reflexivity. }
  split.
  - destruct (raises x p).
    + cbn [fst]. rewrite C. destruct (Nat.eq_dec x h); cbn; lia.
    + destruct (EventEmitter.forEach raises l p) as [cs o]. cbn [fst] in *.
      rewrite C. destruct (Nat.eq_dec x h); lia.
  - intros Q. rewrite (Q x (or_introl eq_refl)).
    assert (Q' : forall y, In y l -> raises y p = false)
      by (intros y Hy; apply Q; right; exact Hy).
    specialize (IH2 Q').
    destruct (EventEmitter.forEach raises l p) as [cs o]. cbn [fst] in *.
    rewrite C, IH2. destruct (Nat.eq_dec x h); lia.
Qed.

Lemma calls_emit {Params : Type}
    (raises : EventEmitter.Handler -> Params -> bool) (e : EventEmitter.t)
    (n : string) (h : EventEmitter.Handler) (p : Params) :
  (calls h (fst (EventEmitter.emit raises e n p)) <= registrations e n h)%nat /\
  ((forall x, In x (handlersOf e n) -> raises x p = false) ->
   calls h (fst (EventEmitter.emit raises e n p)) = registrations e n h).
Proof.
  unfold registrations, EventEmitter.emit, handlersOf.
  destruct (e n) as [|l|]; [split; reflexivity | | split; reflexivity].
  apply calls_forEach.
Qed.

(** X5.  Over a sequence of [emit] calls, a handler registered for the one
    event [n] is never called by an emission of another event, and is called
    at most once per registration by each emission of [n]: exactly once per
    registration when no handler of [n] throws. *)
Theorem deliver_calls {Params : Type}
    (raises : EventEmitter.Handler -> Params -> bool) (e : EventEmitter.t)
    (n : string) (h : EventEmitter.Handler)
    (trace : list (string * Params)) :
  (forall m, m <> n -> registrations e m h = 0%nat) ->
  (calls h (EventEmitter.deliver raises e trace)
   <= registrations e n h
      * List.length (filter (fun c => String.eqb (fst c) n) trace))%nat /\
  ((forall x p, In x (handlersOf e n) -> raises x p = false) ->
   calls h (EventEmitter.deliver raises e trace)
   = (registrations e n h
      * List.length (filter (fun c => String.eqb (fst c) n) trace))%nat).
Proof.
  intros O. unfold EventEmitter.deliver.
  induction trace as [|[m p] trace [IH1 IH2]].
  - cbn. rewrite Nat.mul_0_r. split; reflexivity.
  - cbn [flat_map fst snd filter]. rewrite calls_app.
    destruct (calls_emit raises e m h p) as [C1 C2].
    destruct (String.eqb_spec m n) as [-> | D].
    + cbn [List.length]. split.
      * lia.
      * intros Q. rewrite (IH2 Q), C2 by (intros x Hx; apply Q; exact Hx).
        lia.
    + rewrite (O m D) in C1. split.
      * lia.
      * intros Q. rewrite (IH2 Q). lia.
Qed.

(** One handler subscribed to each of two events, both returning: over two
    emissions of the first event and one of the second, the first handler is
    called twice. *)
Lemma deliver_calls_witness :
  let trace :=
    [("deviceorientationgranted", tt); ("deviceorientationerror", tt);
     ("deviceorientationgranted", tt)] in
  exists e,
    EventEmitter.andThen
      (EventEmitter.on EventEmitter.create "deviceorientationgranted" 1%nat)
      (fun e => EventEmitter.on e "deviceorientationerror" 2%nat)
    = EventEmitter.ok e /\
    calls 1%nat (EventEmitter.deliver (fun _ _ => false) e trace) = 2%nat.
Proof.
  cbv zeta.
  exists (EventEmitter.assign
            (EventEmitter.assign
               (EventEmitter.assign
                  (EventEmitter.assign EventEmitter.create
                     "deviceorientationgranted" [])
                  "deviceorientationgranted" [1%nat])
               "deviceorientationerror" [])
            "deviceorientationerror" [2%nat]).
  split; [reflexivity|].
  refine (eq_trans
            (proj2 (deliver_calls (fun _ _ => false) _
                      "deviceorientationgranted" 1%nat _ _) _) eq_refl).
  - intros m D. unfold registrations, EventEmitter.assign.
    destruct (String.eqb m "deviceorientationerror"); [reflexivity|].
    destruct (String.eqb_spec m "deviceorientationgranted");
      [contradiction|].
    unfold EventEmitter.create.
    destruct (existsb (String.eqb m) EventEmitter.objectPrototype);
      reflexivity.
  - intros x p _. reflexivity.
Defined.

Local Close Scope string_scope.

(** ** The click handler *)

(** X6.  A click is stored with its viewport coordinates divided by the
    width and the height of the canvas; the position of the canvas in the
    viewport is not taken off.  For a canvas of positive size the stored [x]
    is in [[-1, 1]] when [clientX] is between 0 and [clientWidth], at most -1
    when [clientX] is at most 0 and at least 1 when [clientX] is at least
    [clientWidth]; the stored [y] is in [[-1, 1]] when [clientY] is between 0
    and [clientHeight], at least 1 when [clientY] is at most 0 and at most -1
    when [clientY] is at least [clientHeight].  So a click inside a canvas
    that does not start at the left and top edges of the viewport can be
    stored outside the square. *)
Theorem click_is_normalised (clientX clientY clientWidth clientHeight : Q)
    (c : ClickHandler.t) :
  0 < clientWidth -> 0 < clientHeight ->
  exists x y,
    ClickHandler.normalisedMousePosition
      (ClickHandler.onClick clientX clientY clientWidth clientHeight c)
    = Some (x, y) /\
    (0 <= clientX <= clientWidth -> -1 <= x <= 1) /\
    (clientX <= 0 -> x <= -1) /\ (clientWidth <= clientX -> 1 <= x) /\
    (0 <= clientY <= clientHeight -> -1 <= y <= 1) /\
    (clientY <= 0 -> 1 <= y) /\ (clientHeight <= clientY -> y <= -1) /\
    (clientX == 0 -> x == -1) /\ (clientX == clientWidth -> x == 1) /\
    (clientY == 0 -> y == 1) /\ (clientY == clientHeight -> y == -1).
Proof.
  intros Hw Hh. eexists. eexists.
  split; [reflexivity|].
  assert (XW : clientWidth * (clientX / clientWidth) == clientX)
    by (apply Qmult_div_r; lra).
  assert (YH : clientHeight * (clientY / clientHeight) == clientY)
    by (apply Qmult_div_r; lra).
  generalize dependent (clientX / clientWidth).
  generalize dependent (clientY / clientHeight).
  intros v YH u XW.
  split; [intros [A B]; split; nra|].
  split; [intros A; nra|]. split; [intros A; nra|].
  split; [intros [A B]; split; nra|].
  split; [intros A; nra|]. split; [intros A; nra|].
  split; [intros A; nra|]. split; [intros A; nra|].
  split; intros A; nra.
Qed.

(** A canvas of 800 by 600 whose left edge is 100 from the left edge of the
    viewport: a click 50 inside its right edge has clientX 850 and is stored
    with x = 1.125. *)
Lemma click_is_normalised_witness :
  ClickHandler.normalisedMousePosition
    (ClickHandler.onClick 850 150 800 600 ClickHandler.create)
  = Some (850 / 800 * 2 - 1, - (150 / 600 * 2) + 1) /\
  850 / 800 * 2 - 1 == 9 # 8 /\ - (150 / 600 * 2) + 1 == 1 # 2 /\
  ~ 850 / 800 * 2 - 1 <= 1.
Proof.
  destruct (click_is_normalised 850 150 800 600 ClickHandler.create)
    as (x & y & E & _); try lra.
  split; [reflexivity|]. split; [reflexivity|]. split; [reflexivity|].
  intros H. apply H. reflexivity.
Defined.

(** X7.  [raycast] answers a click once: after a click it casts the ray at the
    position of the latest click, and the [raycast] after any [raycast]
    returns the empty array without casting, until the next click. *)
Theorem raycast_consumes_click
    (Camera Scene Intersection : Type)
    (intersectObjects : Q * Q -> Camera -> Scene -> list Intersection)
    (camera camera' : Camera) (scene scene' : Scene)
    (x y w h x' y' w' h' : Q) (c : ClickHandler.t) :
  let cast := ClickHandler.raycast Camera Scene Intersection intersectObjects in
  let clicked := ClickHandler.onClick x y w h (ClickHandler.onClick x' y' w' h' c) in
  cast camera scene clicked
  = (intersectObjects (x / w * 2 - 1, - (y / h * 2) + 1) camera scene,
     ClickHandler.create) /\
  fst (cast camera' scene' (snd (cast camera scene c))) = [] /\
  snd (cast camera' scene' (snd (cast camera scene c))) = ClickHandler.create /\
  cast camera scene ClickHandler.create = ([], ClickHandler.create).
Proof.
  cbv zeta. split; [reflexivity|].
  unfold ClickHandler.raycast.
  destruct c as [[p|]]; cbn; repeat split.
Qed.

(** ** More on update *)

(** The fields a tick leaves alone. *)
Lemma update_fields (w : Window) (scope : Controls) :
  config (update w scope) = config scope /\
  enabled (update w scope) = enabled scope /\
  deviceOrientation (update w scope) = deviceOrientation scope /\
  screenOrientation (update w scope) = screenOrientation scope /\
  alphaOffset (update w scope) = alphaOffset scope /\
  orientationOffset (update w scope) = orientationOffset scope /\
  initialOffset (update w scope) = initialOffset scope /\
  listensOrientationChange (update w scope) = listensOrientationChange scope /\
  listensDeviceOrientation (update w scope) = listensDeviceOrientation scope /\
  (isIOS w = false -> lastCompassY (update w scope) = lastCompassY scope) /\
  (deviceOrientation scope = None -> update w scope = scope).
Proof.
  unfold update.
  destruct (enabled scope) eqn:E; cbn [negb];
    [|rewrite E; repeat split].
  destruct (deviceOrientation scope) as [device|] eqn:D;
    [|rewrite E, D; repeat split].
  destruct (isIOS w); cbn; rewrite ?E, ?D; repeat split;
    intros H; discriminate H.
Qed.

(** X8.  [update] writes the quaternion of the target, [lastOrientation] and
    [lastCompassY] only, and nothing at all while there is no sample: the
    configuration, [enabled], the sample, the screen angle, the two offsets,
    [initialOffset] and the listeners are as before, and off iOS so is
    [lastCompassY]. *)
Theorem update_frame (w : Window) (scope : Controls) :
  config (update w scope) = config scope /\
  enabled (update w scope) = enabled scope /\
  deviceOrientation (update w scope) = deviceOrientation scope /\
  screenOrientation (update w scope) = screenOrientation scope /\
  alphaOffset (update w scope) = alphaOffset scope /\
  orientationOffset (update w scope) = orientationOffset scope /\
  initialOffset (update w scope) = initialOffset scope /\
  listensOrientationChange (update w scope) = listensOrientationChange scope /\
  listensDeviceOrientation (update w scope) = listensDeviceOrientation scope /\
  (isIOS w = false -> lastCompassY (update w scope) = lastCompassY scope) /\
  (deviceOrientation scope = None -> update w scope = scope).
Proof. exact (update_fields w scope). Qed.

Lemma update_frame_witness :
  let w := mkWindow (Some false) (Some true) true false in
  let scope := run w (construct w Three.Identity noOptions) [call_connect None] in
  update w scope = scope.
Proof.
  cbv zeta.
  apply (update_frame (mkWindow (Some false) (Some true) true false)).
  reflexivity.
Defined.

(** X9.  The accessors do not see [update]: the heading and the three angles
    are the same before and after a tick. *)
Theorem accessors_ignore_update (w : Window) (scope : Controls) :
  getCorrectedHeading w (update w scope) = getCorrectedHeading w scope /\
  getAlpha (update w scope) = getAlpha scope /\
  getBeta (update w scope) = getBeta scope /\
  getGamma (update w scope) = getGamma scope.
Proof.
  destruct (update_fields w scope) as (C & _ & D & _ & A & O & _).
  unfold getCorrectedHeading, getAlpha, getBeta, getGamma.
  rewrite ?C, ?D, ?A, ?O. repeat split.
Qed.

Lemma controls_ext (s t : Controls) :
  config s = config t -> quaternion s = quaternion t ->
  enabled s = enabled t -> deviceOrientation s = deviceOrientation t ->
  screenOrientation s = screenOrientation t ->
  alphaOffset s = alphaOffset t -> orientationOffset s = orientationOffset t ->
  initialOffset s = initialOffset t -> lastCompassY s = lastCompassY t ->
  lastOrientation s = lastOrientation t ->
  listensOrientationChange s = listensOrientationChange t ->
  listensDeviceOrientation s = listensDeviceOrientation t ->
  s = t.
Proof.
  destruct s, t. cbn. intros. subst. reflexivity.
Qed.

(** What a tick writes while smoothing is off. *)
Lemma update_unsmoothed (w : Window) (scope : Controls) (device : Sample.t) :
  enabled scope = true -> deviceOrientation scope = Some device ->
  ~ smoothingFactor (config scope) < 1 ->
  let o := thresholdStep scope (rawAngles scope device) in
  let orient :=
    if truthy (screenOrientation scope)
    then MathUtils.degToRad (screenOrientation scope) else 0 in
  let compassY :=
    MathUtils.degToRad (360 - nullish (Sample.webkitCompassHeading device) 0) in
  lastOrientation (update w scope) = Some o /\
  quaternion (update w scope)
  = (if isIOS w
     then Three.WithYaw
            (setObjectQuaternion (Last.alpha o) (Last.beta o) (Last.gamma o)
               orient)
            (compassY + or (orientationOffset scope) 0)
     else setObjectQuaternion (Last.alpha o) (Last.beta o) (Last.gamma o)
            orient) /\
  lastCompassY (update w scope)
  = (if isIOS w then Some compassY else lastCompassY scope).
Proof.
  intros En Dev Hsf. cbv zeta.
  assert (F : ltb (smoothingFactor (config scope)) 1 = false).
  { destruct (ltb_spec (smoothingFactor (config scope)) 1);
      [contradiction | reflexivity]. }
  unfold update. rewrite En, Dev. cbn [negb]. unfold smoothingStep.
  rewrite F.
  destruct (thresholdStep scope (rawAngles scope device)) as [x y z].
  destruct (isIOS w); destruct (lastCompassY scope) eqn:Y; cbn;
    rewrite ?Y; repeat split.
Qed.

Lemma calcAngleWithThreshold_twice (scope : Controls) (a b : Q) :
  _calcAngleWithThreshold scope a (_calcAngleWithThreshold scope a b)
  = _calcAngleWithThreshold scope a b.
Proof.
  unfold _calcAngleWithThreshold.
  destruct (ltb (abs (a - b)) (orientationChangeThreshold (config scope)))
    eqn:X; [rewrite X; reflexivity|].
  destruct (ltb (abs (a - a)) (orientationChangeThreshold (config scope)));
    reflexivity.
Qed.

(** X10.  While smoothing is off ([smoothingFactor] not below 1) a second
    tick on the same sample changes nothing: [update] is idempotent. *)
Theorem update_idempotent (w : Window) (scope : Controls) :
  ~ smoothingFactor (config scope) < 1 ->
  update w (update w scope) = update w scope.
Proof.
  intros Hsf.
  destruct (update_fields w scope) as (C & E & D & S & A & O & _).
  destruct (enabled scope) eqn:En.
  2:{ assert (U : update w scope = scope)
        by (unfold update; rewrite En; reflexivity).
      rewrite U. exact U. }
  destruct (deviceOrientation scope) as [device|] eqn:Dev.
  2:{ assert (U : update w scope = scope)
        by (unfold update; rewrite En, Dev; reflexivity).
      rewrite U. exact U. }
  destruct (update_unsmoothed w scope device En Dev Hsf) as (L1 & Q1 & Y1).
  assert (Hsf' : ~ smoothingFactor (config (update w scope)) < 1)
    by (rewrite C; exact Hsf).
  destruct (update_unsmoothed w (update w scope) device E D Hsf')
    as (L2 & Q2 & Y2).
  assert (R : rawAngles (update w scope) device = rawAngles scope device).
  { unfold rawAngles. rewrite A. reflexivity. }
  assert (TS : thresholdStep (update w scope) (rawAngles scope device)
               = thresholdStep scope (rawAngles scope device)).
  { unfold thresholdStep at 1. rewrite L1.
    assert (K : forall a b, _calcAngleWithThreshold (update w scope) a b
                            = _calcAngleWithThreshold scope a b).
    { intros a b. unfold _calcAngleWithThreshold. rewrite C. reflexivity. }
    rewrite !K. unfold thresholdStep.
    destruct (lastOrientation scope) as [last|];
      cbn [Last.alpha Last.beta Last.gamma].
    - rewrite !calcAngleWithThreshold_twice. reflexivity.
    - destruct (rawAngles scope device) as [x y z].
      cbn [Last.alpha Last.beta Last.gamma].
      unfold _calcAngleWithThreshold.
      repeat match goal with
        | |- context [if ?c then _ else _] => destruct c
        end; reflexivity. }
  rewrite R, TS, S, O in *.
  destruct (update_fields w (update w scope))
    as (C' & E' & D' & S' & A' & O' & I' & LO' & LD' & _).
  apply controls_ext; try assumption.
  - rewrite Q2, Q1. reflexivity.
  - rewrite Y2, Y1. destruct (isIOS w); reflexivity.
  - rewrite L2, L1. reflexivity.
Qed.

Lemma update_idempotent_witness :
  let w := mkWindow (Some true) (Some true) false true in
  let scope :=
    run w
      (construct w Three.Identity (mkOptions None (Some (1 # 10)) None None None))
      [call_connect (Some 90);
       fire_deviceorientation (Event.mk (Some 10) (Some 1) (Some 2) (Some 80));
       call_update;
       fire_deviceorientation (Event.mk (Some 11) (Some 9) (Some 2) (Some 81))] in
  update w (update w scope) = update w scope /\ update w scope <> scope.
Proof.
  cbv zeta. split.
  - apply update_idempotent. intros H. discriminate H.
  - intros H. apply (f_equal lastOrientation) in H. vm_compute in H.
    discriminate H.
Defined.

(** X11.  Off iOS, with smoothing off: when a tick is followed by an event
    whose three angles are each less than the threshold away from what that
    tick stored, the next tick changes nothing, so the target keeps its
    rotation. *)
Theorem deadband_holds_output (w : Window) (scope0 : Controls)
    (d0 d : Sample.t) (last : Last.t) (event : Event.t) :
  isIOS w = false ->
  ~ smoothingFactor (config scope0) < 1 ->
  enabled scope0 = true -> deviceOrientation scope0 = Some d0 ->
  lastOrientation (update w scope0) = Some last ->
  deviceOrientation
    (fst (onDeviceOrientationChangeEvent w event (update w scope0))) = Some d ->
  Qabs (Last.alpha (rawAngles scope0 d) - Last.alpha last)
    < orientationChangeThreshold (config scope0) ->
  Qabs (Last.beta (rawAngles scope0 d) - Last.beta last)
    < orientationChangeThreshold (config scope0) ->
  Qabs (Last.gamma (rawAngles scope0 d) - Last.gamma last)
    < orientationChangeThreshold (config scope0) ->
  update w (fst (onDeviceOrientationChangeEvent w event (update w scope0)))
  = fst (onDeviceOrientationChangeEvent w event (update w scope0)).
Proof.
  intros Hw Hsf En Dev L Hd Ta Tb Tg.
  destruct (update_fields w scope0) as (C & E & D & S & A & O & _).
  destruct (update_unsmoothed w scope0 d0 En Dev Hsf) as (L1 & Q1 & _).
  rewrite Hw in Q1. rewrite L in L1. injection L1 as L1.
  set (s1 := update w scope0) in *.
  assert (H : fst (onDeviceOrientationChangeEvent w event s1)
              = set_deviceOrientation (Some d) s1).
  { revert Hd. unfold onDeviceOrientationChangeEvent. rewrite Hw.
    cbn [fst set_deviceOrientation deviceOrientation].
    intros [= <-]. reflexivity. }
  rewrite H.
  set (s2 := set_deviceOrientation (Some d) s1).
  assert (Hsf2 : ~ smoothingFactor (config s2) < 1)
    by (cbn; rewrite C; exact Hsf).
  assert (En2 : enabled s2 = true) by (cbn; rewrite E; exact En).
  destruct (update_unsmoothed w s2 d En2 eq_refl Hsf2) as (L2 & Q2 & Y2).
  rewrite Hw in Q2, Y2.
  assert (R : rawAngles s2 d = rawAngles scope0 d).
  { unfold rawAngles. cbn [s2 set_deviceOrientation alphaOffset].
    rewrite A. reflexivity. }
  assert (TS : thresholdStep s2 (rawAngles scope0 d) = last).
  { unfold thresholdStep, _calcAngleWithThreshold, abs.
    cbn [s2 set_deviceOrientation lastOrientation config].
    rewrite L, C.
    destruct (ltb_spec (Qabs (Last.alpha (rawAngles scope0 d) - Last.alpha last))
                (orientationChangeThreshold (config scope0)));
      [|contradiction].
    destruct (ltb_spec (Qabs (Last.beta (rawAngles scope0 d) - Last.beta last))
                (orientationChangeThreshold (config scope0)));
      [|contradiction].
    destruct (ltb_spec (Qabs (Last.gamma (rawAngles scope0 d) - Last.gamma last))
                (orientationChangeThreshold (config scope0)));
      [|contradiction].
    destruct last; reflexivity. }
  rewrite R, TS in *.
  destruct (update_fields w s2)
    as (C' & E' & D' & S' & A' & O' & I' & LO' & LD' & _).
  apply controls_ext; try assumption.
  - rewrite Q2. cbn [s2 set_deviceOrientation quaternion screenOrientation].
    rewrite S, Q1, <- L1. reflexivity.
  - rewrite L2. cbn [s2 set_deviceOrientation lastOrientation]. rewrite L.
    reflexivity.
Qed.

(** A threshold of one tenth of a radian, a sample at 10 degrees, a tick, then
    a sample at 12 degrees: the second tick changes nothing. *)
Lemma deadband_holds_output_witness :
  let w := mkWindow (Some false) (Some true) true false in
  let scope0 :=
    run w
      (construct w Three.Identity (mkOptions None (Some (1 # 10)) None None None))
      [call_connect None;
       fire_deviceorientation (Event.mk (Some 10) (Some 0) (Some 0) None)] in
  let event := Event.mk (Some 12) (Some 1) (Some 0) None in
  let scope := fst (onDeviceOrientationChangeEvent w event (update w scope0)) in
  update w scope = scope /\
  deviceOrientation scope <> deviceOrientation scope0.
Proof.
  cbv zeta. split.
  - apply (deadband_holds_output _ _ (Sample.mk 10 0 0 None None)
             (Sample.mk 12 1 0 None None)
             (rawAngles
                (run (mkWindow (Some false) (Some true) true false)
                   (construct (mkWindow (Some false) (Some true) true false)
                      Three.Identity
                      (mkOptions None (Some (1 # 10)) None None None))
                   [call_connect None])
                (Sample.mk 10 0 0 None None)));
      try reflexivity.
    intros H. discriminate H.
  - intros H. discriminate H.
Defined.

(** ** Invariants of the reachable states *)

Lemma reachable_invariant (w : Window) (P : Controls -> Prop) :
  (forall object options, P (construct w object options)) ->
  (forall scope a, P scope -> P (step w scope a)) ->
  forall scope, reachable w scope -> P scope.
Proof.
  intros Base Step scope (object & options & actions & ->).
  assert (G : forall s, P s -> P (run w s actions)).
  { induction actions as [|a actions IH]; intros s H; [exact H|].
    cbn [run fold_left]. apply IH. apply Step. exact H. }
  apply G. apply Base.
Qed.

(** The fields [update] leaves alone, as one rewriting step. *)
Ltac update_fields_in w scope :=
  let C := fresh in
  let E := fresh in
  let D := fresh in
  let S := fresh in
  let A := fresh in
  let O := fresh in
  let I := fresh in
  let LO := fresh in
  let LD := fresh in
  destruct (update_fields w scope) as (C & E & D & S & A & O & I & LO & LD & _);
  rewrite ?C, ?E, ?D, ?S, ?A, ?O, ?I, ?LO, ?LD.

(** X12.  Through its methods and the browser's events an object holds a
    sample only while it is enabled and listening: once disabled by
    [disconnect] it has none, and its three angle accessors and its heading
    return 0. *)
Theorem sample_only_while_enabled (w : Window) (scope : Controls) :
  reachable w scope ->
  (deviceOrientation scope <> None ->
   enabled scope = true /\ listensDeviceOrientation scope = true) /\
  (enabled scope = false ->
   getAlpha scope = 0 /\ getBeta scope = 0 /\ getGamma scope = 0 /\
   getCorrectedHeading w scope = 0).
Proof.
  intros R.
  assert (I : (listensDeviceOrientation scope = true -> enabled scope = true) /\
              (deviceOrientation scope <> None ->
               listensDeviceOrientation scope = true)).
  { revert scope R. apply reachable_invariant.
    - intros object options. cbn. split; [discriminate | congruence].
    - intros scope a [I1 I2]. destruct a; cbn [step].
      + unfold connect, onScreenOrientationChangeEvent. cbv zeta.
        destruct (isIOS w);
          repeat match goal with
            | |- context [if ?c then _ else _] => destruct c
            end; cbn; split; reflexivity.
      + cbn. split; [discriminate | congruence].
      + update_fields_in w scope. split; assumption.
      + cbn. split; assumption.
      + cbn. split; [discriminate | congruence].
      + destruct (listensDeviceOrientation scope) eqn:L.
        * unfold onDeviceOrientationChangeEvent.
          destruct (isIOS w); cbn; rewrite L; split; auto.
        * rewrite L. split; [discriminate|].
          intros X. apply I2 in X. discriminate X.
      + destruct (listensOrientationChange scope); [|split; assumption].
        unfold onScreenOrientationChangeEvent.
        destruct (isIOS w);
          repeat match goal with
            | |- context [if ?c then _ else _] => destruct c
            end; cbn; split; assumption. }
  destruct I as [I1 I2]. split.
  - intros H. split; [apply I1|]; apply I2; exact H.
  - intros H.
    assert (N : deviceOrientation scope = None).
    { destruct (deviceOrientation scope) eqn:D; [|reflexivity].
      assert (T : enabled scope = true)
        by (apply I1, I2; rewrite ?D; discriminate).
      rewrite T in H. discriminate H. }
    unfold getAlpha, getBeta, getGamma, getCorrectedHeading. rewrite N.
    repeat split.
Qed.

Lemma sample_only_while_enabled_witness :
  let w := mkWindow (Some true) (Some true) false true in
  let scope :=
    run w (construct w Three.Identity noOptions)
      [call_connect None;
       fire_deviceorientation (Event.mk (Some 5) (Some 6) (Some 7) (Some 8));
       call_disconnect;
       fire_deviceorientation (Event.mk (Some 9) (Some 9) (Some 9) (Some 9))] in
  getAlpha scope = 0 /\ getCorrectedHeading w scope = 0.
Proof.
  cbv zeta.
  destruct (sample_only_while_enabled
              (mkWindow (Some true) (Some true) false true)
              (run (mkWindow (Some true) (Some true) false true)
                 (construct (mkWindow (Some true) (Some true) false true)
                    Three.Identity noOptions)
                 [call_connect None;
                  fire_deviceorientation
                    (Event.mk (Some 5) (Some 6) (Some 7) (Some 8));
                  call_disconnect;
                  fire_deviceorientation
                    (Event.mk (Some 9) (Some 9) (Some 9) (Some 9))]))
    as [_ Z].
  - eexists. eexists. eexists. reflexivity.
  - destruct Z as (A & _ & _ & H); [reflexivity|]. split; assumption.
Defined.

(** X13.  Off iOS nothing writes the offsets: in every reachable state
    [alphaOffset] and [orientationOffset] are 0, [lastCompassY] is unset and a
    stored sample has no compass heading, so [getAlpha] is the stored alpha
    in radians. *)
Theorem offsets_unused_elsewhere (w : Window) (scope : Controls) :
  isIOS w = false -> reachable w scope ->
  alphaOffset scope = 0 /\ orientationOffset scope = 0 /\
  lastCompassY scope = None /\
  forall device, deviceOrientation scope = Some device ->
    Sample.webkitCompassHeading device = None /\
    getAlpha scope == MathUtils.degToRad (Sample.alpha device).
Proof.
  intros Hw R.
  assert (I : alphaOffset scope = 0 /\ orientationOffset scope = 0 /\
              lastCompassY scope = None /\
              forall device, deviceOrientation scope = Some device ->
                Sample.webkitCompassHeading device = None).
  { revert scope R. apply reachable_invariant.
    - intros object options. cbn. repeat split. intros device H.
      discriminate H.
    - intros scope a (A & O & Y & S). destruct a; cbn [step].
      + unfold connect, onScreenOrientationChangeEvent. rewrite Hw. cbn.
        repeat split; assumption.
      + cbn. repeat split; try assumption. intros device H. discriminate H.
      + destruct (update_fields w scope)
          as (_ & _ & D' & _ & A' & O' & _ & _ & _ & Y' & _).
        rewrite D', A', O', (Y' Hw). repeat split; assumption.
      + cbn. repeat split; assumption.
      + cbn. repeat split; try assumption. intros device H. discriminate H.
      + destruct (listensDeviceOrientation scope);
          [|repeat split; assumption].
        unfold onDeviceOrientationChangeEvent. rewrite Hw. cbn.
        repeat split; try assumption. intros device [= <-]. reflexivity.
      + destruct (listensOrientationChange scope);
          [|repeat split; assumption].
        unfold onScreenOrientationChangeEvent. rewrite Hw. cbn.
        repeat split; assumption. }
  destruct I as (A & O & Y & S). repeat split; try assumption.
  - apply S. assumption.
  - unfold getAlpha. rewrite H, A. unfold MathUtils.degToRad.
    destruct (truthy_spec (Sample.alpha device)) as [T | T]; [lra|].
    assert (Z : Sample.alpha device == 0).
    { destruct (Qeq_dec (Sample.alpha device) 0); [assumption | contradiction]. }
    rewrite Z. ring.
Qed.

Lemma offsets_unused_elsewhere_witness :
  let w := mkWindow (Some false) (Some true) true false in
  let scope :=
    run w (construct w Three.Identity noOptions)
      [call_connect (Some 90);
       fire_deviceorientation (Event.mk (Some (-90)) (Some 6) (Some 7) (Some 8));
       call_update] in
  alphaOffset scope = 0 /\ orientationOffset scope = 0 /\
  getAlpha scope == MathUtils.degToRad 270.
Proof.
  cbv zeta.
  destruct (offsets_unused_elsewhere
              (mkWindow (Some false) (Some true) true false)
              (run (mkWindow (Some false) (Some true) true false)
                 (construct (mkWindow (Some false) (Some true) true false)
                    Three.Identity noOptions)
                 [call_connect (Some 90);
                  fire_deviceorientation
                    (Event.mk (Some (-90)) (Some 6) (Some 7) (Some 8));
                  call_update]) eq_refl)
    as (A & O & _ & S).
  - eexists. eexists. eexists. reflexivity.
  - split; [exact A|]. split; [exact O|].
    destruct (S (Sample.mk (-90 + 360) 6 7 None None) eq_refl) as [_ G].
    rewrite G. reflexivity.
Defined.



(** X15.  After [disconnect] nothing but [connect] changes the object: ticks,
    sensor events, rotation events, [updateAlphaOffset], [dispose] and further
    [disconnect]s leave it as [disconnect] left it. *)
Theorem disconnected_until_connect (w : Window) (scope : Controls)
    (actions : list Action) :
  forallb (fun a => negb (isConnect a)) actions = true ->
  run w (disconnect scope) actions = disconnect scope.
Proof.
  induction actions as [|a actions IH]; intros H; [reflexivity|].
  cbn [forallb] in H. apply andb_true_iff in H. destruct H as [Ha H].
  cbn [run fold_left].
  assert (S : step w (disconnect scope) a = disconnect scope).
  { destruct a; try discriminate Ha; reflexivity. }
  rewrite S. apply IH. exact H.
Qed.

Lemma disconnected_until_connect_witness :
  let w := mkWindow (Some true) (Some true) false true in
  let scope :=
    run w (construct w Three.Identity noOptions)
      [call_connect None;
       fire_deviceorientation (Event.mk (Some 5) (Some 6) (Some 7) (Some 8))] in
  run w (disconnect scope)
    [fire_deviceorientation (Event.mk (Some 9) (Some 9) (Some 9) (Some 9));
     call_update; fire_orientationchange (Some 90); call_dispose]
  = disconnect scope.
Proof.
  cbv zeta. apply disconnected_until_connect. reflexivity.
Defined.

(** X16.  [connect] is idempotent, and a [disconnect] followed by a [connect]
    enables the object without a sample while the smoothing state
    ([lastOrientation], [lastCompassY]), [alphaOffset] and the rotation of
    the target are the ones from before the [disconnect]. *)
Theorem connect_after_disconnect (w : Window) (angle : option Q)
    (scope : Controls) :
  connect w angle (connect w angle scope) = connect w angle scope /\
  enabled (connect w angle (disconnect scope)) = true /\
  deviceOrientation (connect w angle (disconnect scope)) = None /\
  lastOrientation (connect w angle (disconnect scope)) = lastOrientation scope /\
  lastCompassY (connect w angle (disconnect scope)) = lastCompassY scope /\
  alphaOffset (connect w angle (disconnect scope)) = alphaOffset scope /\
  quaternion (connect w angle (disconnect scope)) = quaternion scope.
Proof.
  unfold connect, onScreenOrientationChangeEvent. cbv zeta.
  cbn [screenOrientation set_screenOrientation].
  destruct (isIOS w); [|repeat split].
  destruct (eqb (nullish angle 0) 90) eqn:E1;
    [cbn; rewrite ?E1; repeat split|].
  destruct (eqb (nullish angle 0) (-90)) eqn:E2;
    cbn; rewrite ?E1, ?E2; repeat split.
Qed.

(** ** More on the heading *)







(** X25.  In every reachable state [orientationOffset] is 0, a quarter turn or
    minus a quarter turn. *)
Theorem orientationOffset_values (w : Window) (scope : Controls) :
  reachable w scope ->
  orientationOffset scope = 0 \/
  orientationOffset scope = HALF_PI \/
  orientationOffset scope = - HALF_PI.
Proof. exact (reachable_offset w scope). Qed.

(** Rotation events at 90, 180 and -90 degrees leave a quarter turn. *)
Lemma orientationOffset_values_witness :
  let w := mkWindow (Some true) (Some true) false true in
  let scope :=
    run w (construct w Three.Identity noOptions)
      [call_connect (Some 90); fire_orientationchange (Some 180);
       fire_orientationchange (Some (-90))] in
  orientationOffset scope = HALF_PI /\
  (orientationOffset scope = 0 \/
   orientationOffset scope = HALF_PI \/
   orientationOffset scope = - HALF_PI).
Proof.
  cbv zeta. split; [reflexivity|].
  apply (orientationOffset_values (mkWindow (Some true) (Some true) false true)).
  eexists. eexists. eexists. reflexivity.
Defined.

(** ** More on the permissions *)

Local Open Scope string_scope.
Local Open Scope list_scope.

Lemma emitted_app (n : string) (t u : list Emission) :
  emitted n (t ++ u) = (emitted n t + emitted n u)%nat.
Proof. unfold emitted. rewrite filter_app, length_app. reflexivity. Qed.

(** The emissions of the callback of [catch]: none or one, an error with the
    code PERMISSION_FAILED. *)
Lemma catchCallback_emissions (error : Stringify) :
  (List.length (catchCallback error) <= 1)%nat /\
  emitted "deviceorientationgranted" (catchCallback error) = 0%nat /\
  emitted "deviceorientationerror" (catchCallback error)
  = List.length (catchCallback error) /\
  Forall (fun e => errorCode e
                   = Some "LOCAR_DEVICE_ORIENTATION_PERMISSION_FAILED")
    (catchCallback error).
Proof.
  destruct error; cbn; repeat split; try lia; repeat constructor.
Qed.

Lemma request_emissions (w : Window) (dispatch : Dispatch)
    (p : PermissionPromise) :
  (List.length (fst (requestOrientationPermissions w dispatch p)) <= 2)%nat /\
  ((forall e, dispatch e = None) ->
   List.length (fst (requestOrientationPermissions w dispatch p)) <= 1)%nat /\
  (emitted "deviceorientationgranted"
     (fst (requestOrientationPermissions w dispatch p))
   + emitted "deviceorientationerror"
       (fst (requestOrientationPermissions w dispatch p))
   = List.length (fst (requestOrientationPermissions w dispatch p)))%nat.
Proof.
  unfold requestOrientationPermissions, thenCallback, emit.
  destruct (DeviceOrientationEvent w) as [[|]|];
    try (cbn; repeat split; lia).
  destruct p as [response | reason |]; cbn [fst].
  - destruct (String.eqb response "granted");
      match goal with
      | |- context [dispatch ?e] =>
          destruct (dispatch e) as [thrown|] eqn:T
      end;
      try (cbn; repeat split; lia);
      destruct (catchCallback_emissions thrown) as (L & G & E & _);
      rewrite !length_app, !emitted_app, G, E; cbn;
      (split; [lia|]); (split; [|lia]);
      intros Q; rewrite Q in T; discriminate T.
  - destruct (catchCallback_emissions reason) as (L & G & E & _).
    rewrite G, E. repeat split; lia.
  - cbn. repeat split; lia.
Qed.

(** X18.  One permission request makes at most two emissions, each the
    granted or the error event.  While its promise is pending it makes none;
    where [requestPermission] is missing it makes one, an error with the code
    INTERNAL_ERROR; a promise that resolves gives first the granted event, if
    the response is "granted", or else an error with the code
    PERMISSION_DENIED, and that is all when the handlers of this first event
    return.  The granted event is emitted at most once, and it is emitted
    exactly when [requestPermission] exists and the promise resolves to
    "granted". *)
Theorem permission_request_outcome (w : Window) (dispatch : Dispatch)
    (p : PermissionPromise) :
  (DeviceOrientationEvent w = Some true -> p = pending ->
   fst (requestOrientationPermissions w dispatch p) = []) /\
  (DeviceOrientationEvent w <> Some true ->
   map errorCode (fst (requestOrientationPermissions w dispatch p))
   = [Some "LOCAR_DEVICE_ORIENTATION_INTERNAL_ERROR"]) /\
  (DeviceOrientationEvent w = Some true ->
   forall response, p = resolves response ->
   exists first rest,
     fst (requestOrientationPermissions w dispatch p) = first :: rest /\
     first = (if String.eqb response "granted"
              then permissionGranted else permissionDenied) /\
     (dispatch first = None -> rest = []) /\
     (List.length rest <= 1)%nat /\
     Forall (fun e => fst e = "deviceorientationerror" /\
                      errorCode e
                      = Some "LOCAR_DEVICE_ORIENTATION_PERMISSION_FAILED")
       rest) /\
  (List.length (fst (requestOrientationPermissions w dispatch p)) <= 2)%nat /\
  (emitted "deviceorientationgranted"
     (fst (requestOrientationPermissions w dispatch p))
   + emitted "deviceorientationerror"
       (fst (requestOrientationPermissions w dispatch p))
   = List.length (fst (requestOrientationPermissions w dispatch p)))%nat /\
  (emitted "deviceorientationgranted"
     (fst (requestOrientationPermissions w dispatch p)) <= 1)%nat /\
  (emitted "deviceorientationgranted"
     (fst (requestOrientationPermissions w dispatch p)) = 1%nat
   <-> DeviceOrientationEvent w = Some true /\ p = resolves "granted").
Proof.
  destruct (request_emissions w dispatch p) as (L2 & _ & Sum).
  split; [|split; [|split; [|split; [exact L2 | split; [exact Sum|]]]]].
  - intros H ->. unfold requestOrientationPermissions. rewrite H. reflexivity.
  - intros H. unfold requestOrientationPermissions.
    destruct (DeviceOrientationEvent w) as [[|]|];
      [exfalso; apply H |..]; reflexivity.
  - intros H response ->.
    unfold requestOrientationPermissions, thenCallback, emit. rewrite H.
    cbn [fst].
    set (first := if String.eqb response "granted"
                  then permissionGranted else permissionDenied).
    assert (F : forall thrown,
      Forall (fun e => fst e = "deviceorientationerror" /\
                       errorCode e
                       = Some "LOCAR_DEVICE_ORIENTATION_PERMISSION_FAILED")
        (catchCallback thrown))
      by (intros []; repeat constructor).
    exists first.
    exists (match dispatch first with
            | Some thrown => catchCallback thrown
            | None => []
            end).
    subst first.
    destruct (String.eqb response "granted");
      match goal with
      | |- context [dispatch ?e] =>
          destruct (dispatch e) as [thrown|] eqn:T
      end;
      (split; [reflexivity|]); (split; [reflexivity|]);
      (split; [intros Q; try reflexivity; discriminate Q|]);
      (split; [try (cbn; lia);
               apply (proj1 (catchCallback_emissions thrown))|]);
      try apply F; constructor.
  - clear L2 Sum.
    unfold requestOrientationPermissions, thenCallback, emit.
    destruct (DeviceOrientationEvent w) as [[|]|];
      try (cbn; split; [lia|];
           split; [intros Q; discriminate Q | intros [Q _]; discriminate Q]).
    destruct p as [response | reason |]; cbn [fst].
    + destruct (String.eqb_spec response "granted") as [-> | N];
        match goal with
        | |- context [dispatch ?e] =>
            destruct (dispatch e) as [thrown|]
        end;
        try rewrite emitted_app;
        try rewrite (proj1 (proj2 (catchCallback_emissions thrown)));
        cbn; split; try lia; split; try tauto; try discriminate;
        intros [_ Q]; congruence.
    + rewrite (proj1 (proj2 (catchCallback_emissions reason))).
      split; [lia|].
      split; [intros Q; discriminate Q | intros [_ Q]; discriminate Q].
    + cbn. split; [lia|].
      split; [intros Q; discriminate Q | intros [_ Q]; discriminate Q].
Qed.

Lemma permission_request_outcome_witness :
  let w := mkWindow (Some true) (Some true) false true in
  let quiet : Dispatch := fun _ => None in
  fst (requestOrientationPermissions w quiet (resolves "denied"))
  = [permissionDenied] /\
  map errorCode
    (fst (requestOrientationPermissions
            (mkWindow (Some false) (Some true) true false) quiet pending))
  = [Some "LOCAR_DEVICE_ORIENTATION_INTERNAL_ERROR"] /\
  fst (requestOrientationPermissions w quiet pending) = [].
Proof.
  cbv zeta. split; [reflexivity|]. split.
  - apply (proj1 (proj2 (permission_request_outcome
                           (mkWindow (Some false) (Some true) true false)
                           (fun _ => None) pending))).
    intros H. discriminate H.
  - apply (proj1 (permission_request_outcome
                    (mkWindow (Some true) (Some true) false true)
                    (fun _ => None) pending));
      reflexivity.
Defined.

Lemma flat_map_requests (w : Window) (dispatch : Dispatch) (user : Gestures)
    (bound : nat) :
  (forall p,
     List.length (fst (requestOrientationPermissions w dispatch p))
     <= bound)%nat ->
  (List.length
     (flat_map (fun p => fst (requestOrientationPermissions w dispatch p))
        user)
   <= bound * List.length user)%nat /\
  (emitted "deviceorientationgranted"
     (flat_map (fun p => fst (requestOrientationPermissions w dispatch p))
        user)
   + emitted "deviceorientationerror"
       (flat_map (fun p => fst (requestOrientationPermissions w dispatch p))
          user)
   = List.length
       (flat_map (fun p => fst (requestOrientationPermissions w dispatch p))
          user))%nat.
Proof.
  intros B. induction user as [|p user [IH1 IH2]].
  - cbn. split; lia.
  - cbn [flat_map]. rewrite length_app, !emitted_app.
    destruct (request_emissions w dispatch p) as (_ & _ & E).
    pose proof (B p). cbn [List.length]. split; lia.
Qed.

Lemma init_emissions (w : Window) (scope : Controls) (dispatch : Dispatch)
    (user : Gestures) (bound : nat) :
  (1 <= bound)%nat ->
  (forall p,
     List.length (fst (requestOrientationPermissions w dispatch p))
     <= bound)%nat ->
  (List.length (fst (init w scope dispatch user))
   <= Nat.max 1 (bound * List.length user))%nat /\
  (emitted "deviceorientationgranted" (fst (init w scope dispatch user))
   + emitted "deviceorientationerror" (fst (init w scope dispatch user))
   = List.length (fst (init w scope dispatch user)))%nat.
Proof.
  intros B1 B.
  destruct (flat_map_requests w dispatch user bound B) as [F1 F2].
  pose proof (Nat.le_max_l 1 (bound * List.length user)) as M1.
  pose proof (Nat.le_max_r 1 (bound * List.length user)) as M2.
  generalize dependent (Nat.max 1 (bound * List.length user)). intros m M1 M2.
  unfold init, obtainPermissionGesture, createObtainPermissionGestureDialog.
  destruct (DeviceOrientationEvent w) as [r|]; [|cbn; split; lia].
  destruct (isSecureContext w) as [[|]|];
    try (cbn; split; lia);
    (destruct (r && enablePermissionDialog (config scope));
     [|cbn; split; lia];
     destruct (preferConfirmDialog (config scope));
     [ destruct user as [|p user];
       [ cbn; split; lia
       | destruct (request_emissions w dispatch p) as (_ & _ & E);
         pose proof (B p); cbn [List.length] in *; split; nia ]
     | cbn [fst]; split; lia ]).
Qed.

(** X19.  [init] emits nothing but the granted and the error event.  When no
    handler throws it makes at most one emission for a call without gestures
    and at most one per gesture of the user; whatever the handlers do it makes
    at most two per gesture. *)
Theorem init_emissions_bounded (w : Window) (scope : Controls)
    (dispatch : Dispatch) (user : Gestures) :
  (emitted "deviceorientationgranted" (fst (init w scope dispatch user))
   + emitted "deviceorientationerror" (fst (init w scope dispatch user))
   = List.length (fst (init w scope dispatch user)))%nat /\
  (List.length (fst (init w scope dispatch user))
   <= Nat.max 1 (2 * List.length user))%nat /\
  ((forall e, dispatch e = None) ->
   List.length (fst (init w scope dispatch user))
   <= Nat.max 1 (List.length user))%nat.
Proof.
  split; [|split].
  - apply (init_emissions w scope dispatch user 2); [lia|].
    intros p. apply request_emissions.
  - apply (init_emissions w scope dispatch user 2); [lia|].
    intros p. apply request_emissions.
  - intros Q.
    replace (List.length user) with (1 * List.length user)%nat by lia.
    apply (init_emissions w scope dispatch user 1); [lia|].
    intros p. apply request_emissions. exact Q.
Qed.

(** Two clicks on the button of the dialog, the first request denied and the
    second granted, with handlers that return: two emissions. *)
Lemma init_emissions_bounded_witness :
  let w := mkWindow (Some true) (Some true) false true in
  let scope := construct w Three.Identity noOptions in
  let quiet : Dispatch := fun _ => None in
  fst (init w scope quiet [resolves "denied"; resolves "granted"])
  = [permissionDenied; permissionGranted] /\
  (List.length
     (fst (init w scope quiet [resolves "denied"; resolves "granted"]))
   <= 2)%nat.
Proof.
  cbv zeta. split; [reflexivity|].
  apply (proj2 (proj2 (init_emissions_bounded
                         (mkWindow (Some true) (Some true) false true)
                         (construct
                            (mkWindow (Some true) (Some true) false true)
                            Three.Identity noOptions)
                         (fun _ => None)
                         [resolves "denied"; resolves "granted"]))).
  intros e. reflexivity.
Defined.

(** ** More on the smoother *)

Local Close Scope string_scope.



(** X21.  Two angles that are equal are smoothed to that angle, whatever the
    weight: as it is below [range], and less [range] from there on. *)
Theorem smoothing_equal_angles (a b k range : Q) :
  a == b ->
  (a < range -> _getSmoothedAngle a b k range == a) /\
  (range <= a -> _getSmoothedAngle a b k range == a - range).
Proof.
  intros E. unfold _getSmoothedAngle.
  rewrite (orderAngle_swap a b range) by (intros; lra).
  assert (K : k * a == k * b) by (rewrite E; reflexivity).
  cbn [left right]. split; intros H; split_tests; lra.
Qed.

Lemma smoothing_equal_angles_witness :
  _getSmoothedAngle 3 3 (1 # 3) 6 == 3.
Proof.
  apply (smoothing_equal_angles 3 3 (1 # 3) 6); reflexivity.
Defined.



(** ** The ranges of the smoothed angles *)

(** The smoother on angles taken with both ends of the range. *)
Lemma smoothed_closed_range (a b k range : Q) :
  0 <= a <= range -> 0 <= b <= range -> 0 < k <= 1 ->
  0 <= _getSmoothedAngle a b k range <= range.
Proof.
  intros Ha Hb Hk.
  destruct (Qlt_le_dec a b) as [Hab | Hba].
  - destruct (Qlt_le_dec (b - a) (range / 2)) as [Hs | Hl].
    + destruct (scale_bounds k (b - a) Hk ltac:(lra)) as [B1 B2].
      unfold _getSmoothedAngle.
      rewrite (orderAngle_keep a b range) by (left; split; assumption).
      cbn [left right]. split_tests; qlra.
    + destruct (scale_bounds k (a - b + range) Hk ltac:(lra)) as [B1 B2].
      unfold _getSmoothedAngle.
      rewrite (orderAngle_swap a b range) by (intros; qlra).
      cbn [left right]. split_tests; qlra.
  - destruct (Qlt_le_dec (range / 2) (a - b)) as [Hl | Hs].
    + destruct (scale_bounds k (b - a + range) Hk ltac:(lra)) as [B1 B2].
      unfold _getSmoothedAngle.
      rewrite (orderAngle_keep a b range) by (right; split; qlra).
      cbn [left right]. split_tests; qlra.
    + destruct (scale_bounds k (a - b) Hk ltac:(lra)) as [B1 B2].
      unfold _getSmoothedAngle.
      rewrite (orderAngle_swap a b range) by (intros; qlra).
      cbn [left right]. split_tests; qlra.
Qed.

Lemma scaled_range (x lo hi d : Q) :
  0 < d -> lo <= x <= hi -> lo * d <= x * d <= hi * d.
Proof. intros Hd [L H]. split; nra. Qed.

(** The angles a tick starts from, for a sample in range and no offset: alpha
    on the full circle, and beta and gamma too once they are shifted. *)
Lemma rawAngles_range (scope : Controls) (device : Sample.t) :
  alphaOffset scope = 0 -> sampleInRange device ->
  0 <= Last.alpha (rawAngles scope device) <= TWO_PI /\
  0 <= Last.beta (rawAngles scope device) + Math_PI <= TWO_PI /\
  0 <= Last.gamma (rawAngles scope device) + HALF_PI <= Math_PI.
Proof.
  intros A (Ra & Rb & Rg). unfold rawAngles. cbn [Last.alpha Last.beta Last.gamma].
  rewrite A. unfold MathUtils.degToRad.
  assert (D0 : 0 < MathUtils.DEG2RAD) by reflexivity.
  assert (E1 : 360 * MathUtils.DEG2RAD == TWO_PI) by reflexivity.
  assert (E2 : 180 * MathUtils.DEG2RAD == Math_PI) by reflexivity.
  assert (E3 : 90 * MathUtils.DEG2RAD == HALF_PI) by reflexivity.
  pose proof (scaled_range _ _ _ _ D0 Ra) as Sa.
  pose proof (scaled_range _ _ _ _ D0 Rb) as Sb.
  pose proof (scaled_range _ _ _ _ D0 Rg) as Sg.
  generalize dependent TWO_PI. generalize dependent HALF_PI.
  generalize dependent Math_PI. generalize dependent MathUtils.DEG2RAD.
  intros d D0 Sa Sb Sg pi E2 hpi E3 tpi E1.
  split_tests; lra.
Qed.

Lemma update_lastOrientation (w : Window) (scope : Controls)
    (device : Sample.t) :
  enabled scope = true -> deviceOrientation scope = Some device ->
  lastOrientation (update w scope)
  = Some (thresholdStep scope (smoothingStep scope (rawAngles scope device))).
Proof.
  intros En Dev. unfold update. rewrite En, Dev. cbn [negb].
  destruct (thresholdStep scope (smoothingStep scope (rawAngles scope device))).
  destruct (isIOS w); reflexivity.
Qed.

Lemma smoothingStep_range (scope : Controls) (o : Last.t) :
  0 < smoothingFactor (config scope) < 1 ->
  0 <= Last.alpha o <= TWO_PI ->
  0 <= Last.beta o + Math_PI <= TWO_PI ->
  0 <= Last.gamma o + HALF_PI <= Math_PI ->
  (forall last, lastOrientation scope = Some last -> lastInRange last) ->
  lastInRange (smoothingStep scope o).
Proof.
  intros [K0 K1] Ra Rb Rg L. unfold smoothingStep.
  destruct (ltb_spec (smoothingFactor (config scope)) 1); [|contradiction].
  destruct (lastOrientation scope) as [last|].
  - destruct (L last eq_refl) as (La & Lb & Lg).
    assert (K : 0 < smoothingFactor (config scope) <= 1) by lra.
    unfold lastInRange. cbn [Last.alpha Last.beta Last.gamma].
    split; [|split].
    + apply (smoothed_closed_range _ _ _ _ Ra La K).
    + apply (smoothed_closed_range _ _ _ _ Rb Lb K).
    + apply (smoothed_closed_range _ _ _ _ Rg Lg K).
  - unfold lastInRange. cbn [Last.alpha Last.beta Last.gamma]. tauto.
Qed.

Lemma thresholdStep_range (scope : Controls) (o : Last.t) :
  lastInRange o ->
  (forall last, lastOrientation scope = Some last -> lastInRange last) ->
  lastInRange (thresholdStep scope o).
Proof.
  intros (Ra & Rb & Rg) L. unfold thresholdStep.
  destruct (lastOrientation scope) as [last|];
    [|exact (conj Ra (conj Rb Rg))].
  destruct (L last eq_refl) as (La & Lb & Lg).
  unfold lastInRange, _calcAngleWithThreshold.
  cbn [Last.alpha Last.beta Last.gamma].
  repeat match goal with
    | |- context [if ?c then _ else _] => destruct c
    end; tauto.
Qed.

(** X23.  Off iOS, with a smoothing factor in (0, 1) and events whose angles
    are in range, bounds included, the angles [update] keeps stay in range
    over every run, bounds included: alpha and the shifted beta from 0 to
    2 pi, the shifted gamma from 0 to pi. *)
Theorem smoothing_keeps_ranges (w : Window) (object : Three.Quaternion)
    (options : Options) (actions : list Action) (o : Last.t) :
  isIOS w = false ->
  0 < smoothingFactor (config (construct w object options)) < 1 ->
  Forall actionInRange actions ->
  lastOrientation (run w (construct w object options) actions) = Some o ->
  lastInRange o.
Proof.
  intros Hw K F.
  set (J := fun s : Controls =>
    config s = config (construct w object options) /\
    alphaOffset s = 0 /\
    (forall d, deviceOrientation s = Some d -> sampleInRange d) /\
    (forall l, lastOrientation s = Some l -> lastInRange l)).
  assert (Hs : forall angle s,
    onScreenOrientationChangeEvent w angle s
    = set_screenOrientation (nullish angle 0) s).
  { intros angle s. unfold onScreenOrientationChangeEvent. rewrite Hw.
    reflexivity. }
  assert (Hd : forall event s,
    fst (onDeviceOrientationChangeEvent w event s)
    = set_deviceOrientation
        (Some (Sample.mk
                 (if ltb (nullish (Event.alpha event) 0) 0
                  then nullish (Event.alpha event) 0 + 360
                  else nullish (Event.alpha event) 0)
                 (nullish (Event.beta event) 0)
                 (nullish (Event.gamma event) 0) None None)) s).
  { intros event s. unfold onDeviceOrientationChangeEvent. rewrite Hw.
    reflexivity. }
  assert (Step : forall s a, J s -> actionInRange a -> J (step w s a)).
  { intros s a (C & A & S & L) Ra. unfold J.
    destruct a; cbn [step]; unfold connect; rewrite ?Hs, ?Hd;
      try match goal with
        | |- context [if ?c then _ else _] => destruct c; rewrite ?Hs, ?Hd
        end;
      (split; [|split; [|split]]);
      try exact C; try exact A; try exact S; try exact L;
      try (intros d H; discriminate H).
    - destruct (update_fields w s) as (C' & _). rewrite C'. exact C.
    - destruct (update_fields w s) as (_ & _ & _ & _ & A' & _).
      rewrite A'. exact A.
    - destruct (update_fields w s) as (_ & _ & D' & _).
      rewrite D'. exact S.
    - destruct (enabled s) eqn:En;
        [|unfold update; rewrite En; exact L].
      destruct (deviceOrientation s) as [d|] eqn:Dev;
        [|unfold update; rewrite En, Dev; exact L].
      rewrite (update_lastOrientation w s d En Dev). intros l [= <-].
      destruct (rawAngles_range s d A (S d eq_refl)) as (Ra' & Rb' & Rg').
      apply thresholdStep_range; [|exact L].
      apply smoothingStep_range; try assumption.
      rewrite C. exact K.
    - cbn [deviceOrientation set_deviceOrientation]. intros d [= <-].
      destruct Ra as (Xa & Xb & Xg). unfold sampleInRange.
      cbn [Sample.alpha Sample.beta Sample.gamma].
      split; [|split; assumption].
      destruct (ltb_spec (nullish (Event.alpha event) 0) 0); lra. }
  assert (G : forall s, J s -> J (run w s actions)).
  { induction F as [|a actions Ha F IH]; intros s H; [exact H|].
    cbn [run fold_left]. apply IH. apply Step; assumption. }
  assert (J0 : J (construct w object options)).
  { unfold J. cbn. split; [reflexivity|]. split; [reflexivity|].
    split; intros x H; discriminate H. }
  intros H. destruct (G _ J0) as (_ & _ & _ & L). apply L. exact H.
Qed.

(** Smoothing by one half from 350 to 10 degrees and on to 30 degrees: the
    stored alpha passes 0 and stays on the circle. *)
Lemma smoothing_keeps_ranges_witness :
  let w := mkWindow (Some false) (Some true) true false in
  let scope :=
    run w
      (construct w Three.Identity (mkOptions (Some (1 # 2)) None None None None))
      [call_connect None;
       fire_deviceorientation (Event.mk (Some 350) (Some (-10)) (Some 5) None);
       call_update;
       fire_deviceorientation (Event.mk (Some 10) (Some 10) (Some (-5)) None);
       call_update;
       fire_deviceorientation (Event.mk (Some 30) (Some 10) (Some (-5)) None);
       call_update] in
  (forall o, lastOrientation scope = Some o -> lastInRange o) /\
  option_map (fun o => Qeq_bool (Last.alpha o) (MathUtils.degToRad 15))
    (lastOrientation scope) = Some true.
Proof.
  cbv zeta. split; [|vm_compute; reflexivity].
  intros o H.
  refine (smoothing_keeps_ranges
            (mkWindow (Some false) (Some true) true false) Three.Identity
            (mkOptions (Some (1 # 2)) None None None None) _ o
            eq_refl _ _ H).
  - split; reflexivity.
  - repeat constructor; cbn; lra.
Defined.
